(** * Control plane of the multi-host fleet: enrollment, heartbeat,
      orchestration client and secret vault

    A shallow embedding of the NestJS services of the control plane:

    - [EncryptionService]   (modules/pterodactyl/encryption.service.ts)
    - [PterodactylService]  (modules/pterodactyl/pterodactyl.service.ts)
    - [NodesService]        (modules/nodes/nodes.service.ts)
    - [AgentService]        (modules/agent/agent.service.ts)

    Conventions.  A thrown JavaScript exception is a value of [Js.exn] and a
    method that may throw returns a [Js.result].  [new Date()] is an explicit
    argument [now], in milliseconds.  The Prisma tables are finite maps keyed by
    the row id.  Calls into libraries whose code is not part of the repository
    (sodium-native, Buffer's UTF-8, base64 and hex codecs, @nestjs/jwt) are
    fields of an interface; what is assumed of them is stated as separate
    classes of laws.  A JavaScript string is a [String.string]; what
    [Buffer.from(s, 'utf8')] and [buf.toString('utf8')] make of it is the
    interface's, since neither is the identity on every string.  A value of a
    request body of type [any] where a number is expected is a
    [Js.Figure]. *)

From stdpp Require Import base option list gmap strings pretty.
From Stdlib Require Import ZArith Lia.
From Stdlib.Strings Require Import Byte Ascii.

Open Scope string_scope.
Open Scope Z_scope.

#[global] Instance byte_eq_dec : EqDecision byte := Byte.byte_eq_dec.

(** ** JavaScript results, exceptions and logging *)

Module Js.

(** The exceptions the services throw or let through. *)
Inductive exn : Type :=
| Error (message : string)
| TypeError (message : string)
| RangeError (message : string)
| SyntaxError (message : string)
| NotFoundException (message : string)
| UnauthorizedException (message : string)
| HttpException (message : string) (status : Z)
| PrismaRecordNotFound.

Inductive result (A : Type) : Type :=
| Ok (a : A)
| Throw (e : exn).
Arguments Ok {A} a.
Arguments Throw {A} e.

#[global] Instance exn_eq_dec : EqDecision exn.
Proof. solve_decision. Defined.

#[global] Instance result_ret : MRet result := fun A a => Ok a.
#[global] Instance result_bind : MBind result := fun A B f r =>
  match r with
  | Ok a => f a
  | Throw e => Throw e
  end.

Definition is_ok {A} (r : result A) : bool :=
  match r with
  | Ok _ => true
  | Throw _ => false
  end.

(** [a || b] on optional strings. *)
Definition or_else (a : option string) (b : string) : string :=
  match a with
  | Some s => if String.eqb s "" then b else s
  | None => b
  end.

(** What a request body of type [any] can hold where the services expect a
    number, told apart by what [x || 0] and [BigInt(x)] make of it. *)
Inductive Figure : Type :=
| Undefined                      (* the key is absent *)
| Null
| NotANumber                     (* NaN *)
| Integer (n : Z)                (* a Number without fractional part; -0 is 0 *)
| NotInteger (shown : string)    (* a Number with a fractional part, or an
                                    infinity, as it prints *)
| Boolean (b : bool)
| EmptyText
| Other (converted : result Z).  (* a non-empty string, an array or an object,
                                    and what [BigInt] makes of it: a
                                    SyntaxError unless it reads as an integer *)

(** [BigInt(x)] *)
Definition BigInt (x : Figure) : result Z :=
  match x with
  | Undefined => Throw (TypeError "Cannot convert undefined to a BigInt")
  | Null => Throw (TypeError "Cannot convert null to a BigInt")
  | NotANumber =>
      Throw (RangeError
        "The number NaN cannot be converted to a BigInt because it is not an integer")
  | Integer n => Ok n
  | NotInteger shown =>
      Throw (RangeError
        ("The number " ++ shown
         ++ " cannot be converted to a BigInt because it is not an integer"))
  | Boolean b => Ok (if b then 1 else 0)
  | EmptyText => Ok 0
  | Other converted => converted
  end.

(** Whether [x] is truthy. *)
Definition truthy (x : Figure) : bool :=
  match x with
  | Undefined | Null | NotANumber | EmptyText => false
  | Integer n => negb (n =? 0)
  | Boolean b => b
  | NotInteger _ | Other _ => true
  end.

(** [x || 0] *)
Definition or_zero (x : Figure) : Figure :=
  if truthy x then x else Integer 0.

Inductive level : Type := LogError | LogWarn.

(** One line written through a Nest [Logger]: the logger's context (the class
    name it was created with), the level, the message and the value logged
    after it, if any. *)
Record LogEntry : Type := mkLog {
  log_context : string;
  log_level : level;
  log_message : string;
  log_detail : option exn
}.

(** A computation that writes log lines and then returns or throws. *)
Definition logged (A : Type) : Type := list LogEntry * result A.

End Js.

Import Js.

(** ** Secret vault: [EncryptionService] *)

Module Vault.

(** The library calls of [EncryptionService]: sodium-native and Buffer's
    codecs.  [crypto_secretbox_easy] yields the combined box (of
    [length message + MACBYTES] bytes) or throws; [crypto_secretbox_open_easy]
    yields the message when the box authenticates ([Some]), [None] when it
    returns [false], or throws.  [utf8_encode] writes U+FFFD for each lone
    surrogate of the string and [utf8_decode] reads U+FFFD for each byte
    sequence that is not UTF-8: a string is sure to come back from its bytes
    only if it [isWellFormed]. *)
Class Runtime : Type := {
  crypto_secretbox_KEYBYTES : nat;
  crypto_secretbox_NONCEBYTES : nat;
  crypto_secretbox_MACBYTES : nat;
  crypto_secretbox_easy :
    list byte (* message *) -> list byte (* nonce *) -> list byte (* key *) ->
    result (list byte);
  crypto_secretbox_open_easy :
    list byte (* ciphertext *) -> list byte (* nonce *) -> list byte (* key *) ->
    result (option (list byte));
  base64_encode : list byte -> string;   (* buf.toString('base64') *)
  base64_decode : string -> list byte;   (* Buffer.from(s, 'base64') *)
  hex_encode : list byte -> string;      (* buf.toString('hex') *)
  hex_decode : string -> list byte;      (* Buffer.from(s, 'hex') *)
  utf8_encode : string -> list byte;     (* Buffer.from(s, 'utf8') *)
  utf8_decode : list byte -> string;     (* buf.toString('utf8') *)
  isWellFormed : string -> bool          (* s.isWellFormed(): no lone surrogate *)
}.

(** What the vault relies on: a box made with a nonce and a key of the right
    sizes has [MACBYTES] more bytes than the message and opens, under the same
    nonce and key, to the message; base64 decoding inverts base64 encoding. *)
Class RuntimeLaws (R : Runtime) : Prop := {
  secretbox_roundtrip : forall message nonce key,
    length nonce = crypto_secretbox_NONCEBYTES ->
    length key = crypto_secretbox_KEYBYTES ->
    exists box,
      crypto_secretbox_easy message nonce key = Ok box /\
      length box = (length message + crypto_secretbox_MACBYTES)%nat /\
      crypto_secretbox_open_easy box nonce key = Ok (Some message);
  base64_roundtrip : forall data, base64_decode (base64_encode data) = data
}.

(** What [generateKey] and the constructor rely on besides: hex decoding
    inverts hex encoding, and the empty string decodes to no byte. *)
Class HexLaws (R : Runtime) : Prop := {
  hex_roundtrip : forall data, hex_decode (hex_encode data) = data;
  hex_decode_empty : hex_decode "" = []
}.

(** What the round trip of a string through the vault relies on besides: a
    well-formed string is read back from its UTF-8 bytes. *)
Class Utf8Laws (R : Runtime) : Prop := {
  utf8_roundtrip : forall s, isWellFormed s = true -> utf8_decode (utf8_encode s) = s
}.

Section EncryptionService.
Context {R : Runtime}.

Definition logger_context : string := "EncryptionService".

(** The service object: its [key] field. *)
Record EncryptionService : Type := mkEncryptionService {
  key : list byte
}.

(** [constructor(configService)], given [configService.get('ENCRYPTION_KEY')]. *)
Definition new_EncryptionService (keyHex : option string) : result EncryptionService :=
  match keyHex with
  | Some hex =>
      if String.eqb hex "" then
        Throw (Error "ENCRYPTION_KEY environment variable is required")
      else
        let key := hex_decode hex in
        if negb (Nat.eqb (length key) crypto_secretbox_KEYBYTES) then
          Throw (Error ("Encryption key must be "
                        ++ pretty crypto_secretbox_KEYBYTES ++ " bytes ("
                        ++ pretty (crypto_secretbox_KEYBYTES * 2)%nat
                        ++ " hex characters)"))
        else Ok (mkEncryptionService key)
  | None => Throw (Error "ENCRYPTION_KEY environment variable is required")
  end.

(** The body of [encrypt]'s [try] block; [nonce] is what [randombytes_buf]
    wrote into the freshly allocated nonce buffer. *)
Definition encrypt_body (this : EncryptionService) (nonce : list byte)
    (plaintext : string) : result string :=
  let message := utf8_encode plaintext in
  ciphertext ← crypto_secretbox_easy message nonce (key this);
  let result := (nonce ++ ciphertext)%list in
  mret (base64_encode result).

Definition encrypt (this : EncryptionService) (nonce : list byte)
    (plaintext : string) : logged string :=
  match encrypt_body this nonce plaintext with
  | Ok blob => ([], Ok blob)
  | Throw error =>
      ([mkLog logger_context LogError "Encryption failed:" (Some error)],
       Throw (Error "Encryption failed"))
  end.

(** The body of [decrypt]'s [try] block. *)
Definition decrypt_body (this : EncryptionService) (encryptedData : string)
    : result string :=
  let data := base64_decode encryptedData in
  if (length data <? crypto_secretbox_NONCEBYTES + crypto_secretbox_MACBYTES)%nat then
    Throw (Error "Invalid encrypted data length")
  else
    let nonce := take crypto_secretbox_NONCEBYTES data in
    let ciphertext := drop crypto_secretbox_NONCEBYTES data in
    success ← crypto_secretbox_open_easy ciphertext nonce (key this);
    match success with
    | None => Throw (Error "Decryption failed - invalid data or key")
    | Some message => mret (utf8_decode message)
    end.

Definition decrypt (this : EncryptionService) (encryptedData : string)
    : logged string :=
  match decrypt_body this encryptedData with
  | Ok plaintext => ([], Ok plaintext)
  | Throw error =>
      ([mkLog logger_context LogError "Decryption failed:" (Some error)],
       Throw (Error "Decryption failed"))
  end.

(** [generateKey()]; [random] is what [randombytes_buf] wrote into the key
    buffer of [crypto_secretbox_KEYBYTES] bytes. *)
Definition generateKey (random : list byte) : string := hex_encode random.

End EncryptionService.

End Vault.

(** ** Orchestration client: [PterodactylService] *)

Module Orchestration.

Inductive Method : Type := GET | POST | PATCH | DELETE.

(** The [AxiosRequestConfig] that [makeRequest] builds; [D] is the type of the
    request body. *)
Record AxiosRequestConfig (D : Type) : Type := mkConfig {
  method : Method;
  url : string;
  headers : list (string * string);
  data : option D
}.
Arguments mkConfig {D} _ _ _ _.
Arguments method {D} _.
Arguments url {D} _.
Arguments headers {D} _.
Arguments data {D} _.

(** What a rejected request carries: [error.message], [error.response?.status]
    and [error.response?.data].  A timeout or a refused connection has no
    response, hence no status. *)
Record AxiosError : Type := mkAxiosError {
  error_message : string;
  response_status : option Z;
  response_data : option string
}.

#[global] Instance AxiosError_eq_dec : EqDecision AxiosError.
Proof. solve_decision. Defined.

(** The outcome of one [httpService.request(config)]. *)
Inductive AxiosOutcome (T : Type) : Type :=
| Response (response_data : T)
| Failure (error : AxiosError).
Arguments Response {T} _.
Arguments Failure {T} _.

(** What a trace keeps of a request: its config without the body. *)
Record RequestLine : Type := mkRequestLine {
  line_method : Method;
  line_url : string;
  line_headers : list (string * string)
}.

Definition request_line {D} (config : AxiosRequestConfig D) : RequestLine :=
  mkRequestLine (method config) (url config) (headers config).

(** What [makeRequest] does besides returning, in order. *)
Inductive Event : Type :=
| Requested (attempt : nat) (request : RequestLine)
| LoggedFailure (attempt retries : nat) (endpoint : string) (error : AxiosError)
| Slept (milliseconds : Z).

(** [error.response?.status || HttpStatus.INTERNAL_SERVER_ERROR] *)
Definition status_or_500 (error : AxiosError) : Z :=
  match response_status error with
  | Some status => if status =? 0 then 500 else status
  | None => 500
  end.

Section PterodactylService.
Context {R : Vault.Runtime}.

Definition logger_context : string := "PterodactylService".

Record PterodactylService : Type := mkPterodactylService {
  baseUrl : string;
  apiKey : string;
  encryptionService : Vault.EncryptionService
}.

(** [constructor(httpService, configService, encryptionService)], given
    [configService.get]. *)
Definition new_PterodactylService (configService_get : string -> option string)
    (encryptionService : Vault.EncryptionService) : logged PterodactylService :=
  match configService_get "PTERODACTYL_URL", configService_get "PTERODACTYL_API_KEY" with
  | Some baseUrl, Some encryptedApiKey =>
      if String.eqb baseUrl "" || String.eqb encryptedApiKey "" then
        ([], Throw (Error "PTERODACTYL_URL and PTERODACTYL_API_KEY must be configured"))
      else
        match Vault.decrypt encryptionService encryptedApiKey with
        | (log, Ok apiKey) =>
            (log, Ok (mkPterodactylService baseUrl apiKey encryptionService))
        | (log, Throw _) =>
            ((log ++ [mkLog logger_context LogWarn
                        "Using plain text API key - consider encrypting it" None])%list,
             Ok (mkPterodactylService baseUrl encryptedApiKey encryptionService))
        end
  | _, _ => ([], Throw (Error "PTERODACTYL_URL and PTERODACTYL_API_KEY must be configured"))
  end.

(** The [config] object at the head of [makeRequest]. *)
Definition request_config {D} (this : PterodactylService) (method : Method)
    (endpoint : string) (data : option D) : AxiosRequestConfig D :=
  mkConfig method
    (baseUrl this ++ "/api/application" ++ endpoint)
    [("Authorization", "Bearer " ++ apiKey this);
     ("Content-Type", "application/json");
     ("Accept", "application/json")]
    data.

Section Retry.
Context {D T : Type}.

Variable this : PterodactylService.

(** [http attempt config] is what [httpService.request(config)] yields when
    it is called for the [attempt]-th time. *)
Variable http : nat -> AxiosRequestConfig D -> AxiosOutcome T.
Variable method : Method.
Variable endpoint : string.
Variable data : option D.
Variable retries : nat.

(** The [for] loop of [makeRequest], entered with [attempt] and with
    [remaining = retries + 1 - attempt] iterations before [attempt <= retries]
    fails.  Falling off the loop returns [undefined] ([None]). *)
Fixpoint attempts (remaining attempt : nat) : list Event * result (option T) :=
  let config := request_config this method endpoint data in
  match remaining with
  | O => ([], Ok None)
  | S remaining' =>
      match http attempt config with
      | Response response_data =>
          ([Requested attempt (request_line config)], Ok (Some response_data))
      | Failure error =>
          if Nat.eqb attempt retries then
            ([Requested attempt (request_line config);
              LoggedFailure attempt retries endpoint error],
             Throw (HttpException
                      ("Pterodactyl API request failed: " ++ error_message error)
                      (status_or_500 error)))
          else
            let '(events, outcome) := attempts remaining' (S attempt) in
            (Requested attempt (request_line config)
               :: LoggedFailure attempt retries endpoint error
               :: Slept (2 ^ Z.of_nat attempt * 1000) :: events,
             outcome)
      end
  end.

(** [makeRequest(method, endpoint, data, retries)] *)
Definition makeRequest : list Event * result (option T) := attempts retries 1%nat.

(** The trace of [count] failed attempts starting with [attempt], each
    followed by its backoff delay; [errors k] is the error of attempt [k]. *)
Fixpoint failed_attempts (errors : nat -> AxiosError) (count attempt : nat)
    : list Event :=
  match count with
  | O => []
  | S count' =>
      Requested attempt (request_line (request_config this method endpoint data))
        :: LoggedFailure attempt retries endpoint (errors attempt)
        :: Slept (2 ^ Z.of_nat attempt * 1000)
        :: failed_attempts errors count' (S attempt)
  end.

End Retry.

(** [retries = 3] when the caller passes none, which is every caller in the
    service. *)
Definition default_retries : nat := 3.

(** The requests sent (by attempt number), the lines of the requests sent and
    the delays slept, read off a trace. *)
Definition requests (events : list Event) : list nat :=
  omap (fun e => match e with Requested attempt _ => Some attempt | _ => None end) events.

Definition request_lines (events : list Event) : list RequestLine :=
  omap (fun e => match e with Requested _ request => Some request | _ => None end) events.

Definition delays (events : list Event) : list Z :=
  omap (fun e => match e with Slept ms => Some ms | _ => None end) events.

(** [testConnection()]: the request with its trace, then what the method
    logs and returns. *)
Definition testConnection {T} (this : PterodactylService)
    (http : nat -> AxiosRequestConfig unit -> AxiosOutcome T)
    : list Event * logged bool :=
  match makeRequest this http GET "/users?per_page=1" None default_retries with
  | (events, Ok _) => (events, ([], Ok true))
  | (events, Throw error) =>
      (events,
       ([mkLog logger_context LogError "Pterodactyl connection test failed:" (Some error)],
        Ok false))
  end.

(** [encryptApiKey(apiKey)] *)
Definition encryptApiKey (this : PterodactylService) (nonce : list byte)
    (apiKey : string) : logged string :=
  Vault.encrypt (encryptionService this) nonce apiKey.

End PterodactylService.

End Orchestration.

(** ** The database: the Prisma tables the services read and write *)

Module NodeStatus.

(** Modelled from the spec: the Prisma schema, which declares the values of a
    node's [status] column, is not among the sources.  The values are those of
    the spec's node lifecycle (section 4.1); the services themselves write
    ['pending'], ['installing'] and ['online']. *)
Inductive t : Type := pending | installing | online | offline | error.

#[global] Instance eq_dec : EqDecision t.
Proof. solve_decision. Defined.

End NodeStatus.

Module Prisma.

(** A row of table [node], without its [id] (the key of the table). *)
Record Node : Type := mkNode {
  tenantId : string;
  name : string;
  fqdn : string;
  publicIp : string;
  privateIp : option string;
  cpuCores : Z;
  memoryMb : Z;
  diskGb : Z;
  status : NodeStatus.t;
  enrollmentToken : option string;
  enrollmentExpiresAt : option Z;
  pterodactylId : option Z;
  locationId : option Z;
  daemonToken : option string;
  lastHeartbeat : option Z;
  agentVersion : option string;
  wingsVersion : option string
}.

#[global] Instance Node_eq_dec : EqDecision Node.
Proof. solve_decision. Defined.

(** A row of table [tenant]: the column the services read. *)
Record Tenant : Type := mkTenant {
  tenant_name : string
}.

(** Modelled from the spec: the Prisma schema of table [nodeMetric] is not
    among the sources.  A row has the columns [nodeMetric.create] is given and
    the [timestamp] of a Metric Sample (spec, section 3), which
    [NodesService.findOne] orders by; as no caller supplies one, it is the
    time the row was inserted.  The usage figures are JavaScript numbers,
    stored as they come (here: in hundredths of a percent). *)
Record NodeMetric : Type := mkNodeMetric {
  metric_nodeId : string;
  cpuUsage : Z;
  memoryUsage : Z;
  diskUsage : Z;
  networkRx : Z;
  networkTx : Z;
  timestamp : Z
}.

#[global] Instance NodeMetric_eq_dec : EqDecision NodeMetric.
Proof. solve_decision. Defined.

Record Db : Type := mkDb {
  nodes : gmap string Node;
  tenants : gmap string Tenant;
  nodeMetrics : list NodeMetric
}.

(** A database call, or a service method made of them: it runs on a database
    and leaves one, returning or throwing. *)
Definition Prisma (A : Type) : Type := Db -> Db * result A.

Definition ret {A} (a : A) : Prisma A := fun db => (db, Ok a).

Definition throw {A} (e : exn) : Prisma A := fun db => (db, Throw e).

Definition bind {A B} (m : Prisma A) (f : A -> Prisma B) : Prisma B :=
  fun db =>
    match m db with
    | (db', Ok a) => f a db'
    | (db', Throw e) => (db', Throw e)
    end.

(** A call that does not touch the database. *)
Definition lift {A} (r : result A) : Prisma A := fun db => (db, r).

Declare Scope prisma_scope.
Delimit Scope prisma_scope with prisma.
Notation "'await' x <- m ; k" := (bind m (fun x => k))
  (at level 10, x pattern, m at level 100, k at level 200) : prisma_scope.

Definition has_enrollmentToken (token : string) (row : string * Node) : Prop :=
  enrollmentToken row.2 = Some token.

#[global] Instance has_enrollmentToken_dec token row : Decision (has_enrollmentToken token row).
Proof. unfold has_enrollmentToken. apply _. Defined.

(** [prisma.node.findUnique({ where: { enrollmentToken: token } })]: the row
    with that token and its id, if there is one. *)
Definition node_findUnique_enrollmentToken (token : string)
    : Prisma (option (string * Node)) :=
  fun db => (db, Ok (snd <$> list_find (has_enrollmentToken token) (map_to_list (nodes db)))).

(** [prisma.node.findUnique({ where: { id } })] *)
Definition node_findUnique_id (id : string) : Prisma (option Node) :=
  fun db => (db, Ok (nodes db !! id)).

(** [prisma.node.update({ where: { id }, data })]: [data] as the change it
    makes to the row.  It throws when no row has the id. *)
Definition node_update (id : string) (data : Node -> Node) : Prisma Node :=
  fun db =>
    match nodes db !! id with
    | Some node =>
        let node' := data node in
        (mkDb (<[id := node']> (nodes db)) (tenants db) (nodeMetrics db), Ok node')
    | None => (db, Throw PrismaRecordNotFound)
    end.

(** Modelled from the spec: the Prisma schema is not among the sources; in
    the spec's data model (section 3) [enrollmentToken] is unique, as
    [findUnique] by it requires.
    [prisma.node.create({ data })]; [id] is the id the database gives the
    row.  The call fails when the id is taken or when the row's enrollment
    token is held by a row of the table. *)
Definition node_create (id : string) (row : Node) : Prisma Node :=
  fun db =>
    match nodes db !! id with
    | Some _ => (db, Throw (Error "Unique constraint failed on the fields: (`id`)"))
    | None =>
        match enrollmentToken row with
        | Some token =>
            if bool_decide (token ∈ omap (fun r : string * Node => enrollmentToken r.2)
                                         (map_to_list (nodes db)))
            then (db, Throw (Error "Unique constraint failed on the fields: (`enrollmentToken`)"))
            else (mkDb (<[id := row]> (nodes db)) (tenants db) (nodeMetrics db), Ok row)
        | None => (mkDb (<[id := row]> (nodes db)) (tenants db) (nodeMetrics db), Ok row)
        end
    end.

(** [prisma.nodeMetric.create({ data })]: a new row, whatever rows are there. *)
Definition nodeMetric_create (row : NodeMetric) : Prisma unit :=
  fun db => (mkDb (nodes db) (tenants db) (nodeMetrics db ++ [row])%list, Ok tt).

(** The enrollment tokens in table [node], one per row that has one. *)
Definition tokens (db : Db) : list string :=
  omap (fun row : string * Node => enrollmentToken row.2) (map_to_list (nodes db)).

(** Column [enrollmentToken] is unique ([findUnique] is only offered for a
    unique column): no token is held by two rows. *)
Definition unique_tokens (db : Db) : Prop := NoDup (tokens db).

#[global] Instance unique_tokens_dec db : Decision (unique_tokens db).
Proof. unfold unique_tokens. apply _. Defined.

(** A column given [undefined] in [data] keeps its value. *)
Definition set_if_defined {A} (value : option A) (old : option A) : option A :=
  match value with
  | Some v => Some v
  | None => old
  end.

End Prisma.

Import Prisma.
Open Scope prisma_scope.

(** ** Enrollment gateway: [NodesService] *)

(** The objects exchanged with [PterodactylService], with the fields
    [enrollNode] writes or reads. *)
Module CreateLocationDto.
Record t : Type := mk { short : string; long : option string }.
End CreateLocationDto.

Module CreateNodeDto.
Record t : Type := mk {
  name : string;
  description : option string;
  location_id : Z;
  fqdn : string;
  memory : Z;
  disk : Z;
  public : option bool
}.
End CreateNodeDto.

Module CreateAllocationDto.
Record t : Type := mk { ip : string; ports : list Z }.
End CreateAllocationDto.

Module PterodactylLocation.
Record t : Type := mk { id : Z }.
End PterodactylLocation.

Module PterodactylNode.
Record t : Type := mk { id : Z; daemon_token : string }.
End PterodactylNode.

(** [nodeData], the body of the enroll request. *)
Module NodeData.
Record t : Type := mk {
  name : string;
  fqdn : string;
  publicIp : string;
  privateIp : option string;
  cpuCores : Z;
  memoryMb : Z;
  diskGb : Z
}.
End NodeData.

Module Nodes.

(** The methods of the injected [PterodactylService] that [enrollNode] calls,
    each with the outcome it has for this caller (for the four requests: what
    [makeRequest] returns or throws once its attempts are over). *)
Record PterodactylApi : Type := mkApi {
  createLocation : CreateLocationDto.t -> result PterodactylLocation.t;
  createNode : CreateNodeDto.t -> result PterodactylNode.t;
  createAllocation : Z -> CreateAllocationDto.t -> result unit;
  getNodeConfiguration : Z -> result string;
  encryptApiKey : string -> result string
}.

(** What [enrollNode] returns. *)
Record EnrollResult : Type := mkEnrollResult {
  nodeId : string;
  daemonConfig : string
}.

(** What [generateEnrollmentToken] returns. *)
Record EnrollmentToken : Type := mkEnrollmentToken {
  issued_nodeId : string;
  issued_enrollmentToken : string;
  issued_expiresAt : Z;
  installCommand : string
}.

(** [generateInstallCommand(token)], given [process.env.CONTROL_PLANE_URL]. *)
Definition generateInstallCommand (env_CONTROL_PLANE_URL : option string)
    (token : string) : string :=
  "curl -fsSL " ++ or_else env_CONTROL_PLANE_URL "https://cp.example.com"
    ++ "/api/nodes/install | bash -s -- " ++ token.

(** The row [generateEnrollmentToken] creates. *)
Definition pending_node (tenantId token : string) (expiresAt : Z) : Node :=
  mkNode tenantId "Pending Node" "pending" "0.0.0.0" None 0 0 0
    NodeStatus.pending (Some token) (Some expiresAt)
    None None None None None None.

(** [generateEnrollmentToken(tenantId, tenantAdminId)].  [token] is what
    [nanoid(64)] drew, [id] the id the database gives the new row, and
    [expiresAt] the date [new Date()] has become after
    [setHours(getHours() + 24)]: the same wall-clock time a day later.
    [auditService.log] writes to table [auditLog], which is not one of the
    tables of [Db], and swallows whatever goes wrong there, so it leaves
    nothing here. *)
Definition generateEnrollmentToken (env_CONTROL_PLANE_URL : option string)
    (expiresAt : Z) (token id : string) (tenantId tenantAdminId : string)
    : Prisma EnrollmentToken :=
  await node <- node_create id (pending_node tenantId token expiresAt);
  ret (mkEnrollmentToken id token expiresAt
         (generateInstallCommand env_CONTROL_PLANE_URL token)).

(** [node.enrollmentExpiresAt < new Date()]; a [null] date compares as 0. *)
Definition expired (node : Node) (now : Z) : bool :=
  match enrollmentExpiresAt node with
  | Some expiresAt => expiresAt <? now
  | None => 0 <? now
  end.

(** The row [findUnique] returned, with [include: { tenant: true }]. *)
Record Found : Type := mkFound {
  found_id : string;
  found_node : Node;
  found_tenant : option Tenant
}.

(** The head of [enrollNode]: the lookup by token and the guard after it. *)
Definition enroll_lookup (now : Z) (token : string) : Prisma Found :=
  fun db =>
    match node_findUnique_enrollmentToken token db with
    | (db', Ok (Some (id, node))) =>
        if expired node now then
          (db', Throw (NotFoundException "Invalid or expired enrollment token"))
        else (db', Ok (mkFound id node (tenants db' !! tenantId node)))
    | (db', Ok None) =>
        (db', Throw (NotFoundException "Invalid or expired enrollment token"))
    | (db', Throw e) => (db', Throw e)
    end.

(** [data] of the [prisma.node.update] in [enrollNode]. *)
Definition enrolled (nodeData : NodeData.t) (pterodactylId locationId : Z)
    (daemonToken : string) (node : Node) : Node :=
  mkNode (tenantId node)
    (NodeData.name nodeData)
    (NodeData.fqdn nodeData)
    (NodeData.publicIp nodeData)
    (set_if_defined (NodeData.privateIp nodeData) (privateIp node))
    (NodeData.cpuCores nodeData)
    (NodeData.memoryMb nodeData)
    (NodeData.diskGb nodeData)
    NodeStatus.installing
    None
    None
    (Some pterodactylId)
    (Some locationId)
    (Some daemonToken)
    (lastHeartbeat node)
    (agentVersion node)
    (wingsVersion node).

(** [Array.from({ length: 100 }, (_, i) => 25565 + i)] *)
Definition default_ports : list Z := (fun i => 25565 + i) <$> seqZ 0 100.

(** The rest of [enrollNode], from the first call to Pterodactyl on. *)
Definition enroll_after_lookup (pterodactylService : PterodactylApi)
    (nodeData : NodeData.t) (found : Found) : Prisma EnrollResult :=
  let node := found_node found in
  match found_tenant found with
  | None => throw (TypeError "Cannot read properties of null (reading 'name')")
  | Some tenant =>
      await location <- lift (createLocation pterodactylService
        (CreateLocationDto.mk
           ("loc-" ++ String.substring 0 8 (tenantId node))
           (Some ("Location for " ++ tenant_name tenant))));
      await pterodactylNode <- lift (createNode pterodactylService
        (CreateNodeDto.mk
           (NodeData.name nodeData)
           (Some ("Node for tenant " ++ tenant_name tenant))
           (PterodactylLocation.id location)
           (NodeData.fqdn nodeData)
           (NodeData.memoryMb nodeData)
           (NodeData.diskGb nodeData)
           (Some false)));
      await daemonToken <- lift (encryptApiKey pterodactylService
        (PterodactylNode.daemon_token pterodactylNode));
      await updatedNode <- node_update (found_id found)
        (enrolled nodeData (PterodactylNode.id pterodactylNode)
           (PterodactylLocation.id location) daemonToken);
      await _ <- lift (createAllocation pterodactylService
        (PterodactylNode.id pterodactylNode)
        (CreateAllocationDto.mk
           (or_else (NodeData.privateIp nodeData) (NodeData.publicIp nodeData))
           default_ports));
      await daemonConfig <- lift (getNodeConfiguration pterodactylService
        (PterodactylNode.id pterodactylNode));
      ret (mkEnrollResult (found_id found) daemonConfig)
  end.

(** [enrollNode(token, nodeData)] *)
Definition enrollNode (pterodactylService : PterodactylApi) (now : Z)
    (token : string) (nodeData : NodeData.t) : Prisma EnrollResult :=
  await found <- enroll_lookup now token;
  enroll_after_lookup pterodactylService nodeData found.

(** Two calls of [enrollNode] for one token whose executions interleave at
    the first [await]: the second call's lookup runs before the first call
    goes on from its own.  Each call then runs to its end, the first one
    first.  The pair holds what the two callers get. *)
Definition enrollNode_raced (serviceA serviceB : PterodactylApi) (nowA nowB : Z)
    (token : string) (nodeDataA nodeDataB : NodeData.t)
    : Db -> Db * (result EnrollResult * result EnrollResult) :=
  fun db =>
    let '(db, foundA) := enroll_lookup nowA token db in
    let '(db, foundB) := enroll_lookup nowB token db in
    let '(db, resultA) :=
      match foundA with
      | Ok found => enroll_after_lookup serviceA nodeDataA found db
      | Throw e => (db, Throw e)
      end in
    let '(db, resultB) :=
      match foundB with
      | Ok found => enroll_after_lookup serviceB nodeDataB found db
      | Throw e => (db, Throw e)
      end in
    (db, (resultA, resultB)).

(** A panel that accepts what [enrollNode] asks of it. *)
Definition accepts (pterodactylService : PterodactylApi) : Prop :=
  (forall dto, is_ok (createLocation pterodactylService dto) = true) /\
  (forall dto, is_ok (createNode pterodactylService dto) = true) /\
  (forall id dto, is_ok (createAllocation pterodactylService id dto) = true) /\
  (forall id, is_ok (getNodeConfiguration pterodactylService id) = true) /\
  (forall apiKey, is_ok (encryptApiKey pterodactylService apiKey) = true).

(** The injected service whose [encryptApiKey] is the vault's [encrypt] with
    the nonce it draws, the four requests being answered as [panel] says. *)
Definition sealing {R : Vault.Runtime} (vault : Vault.EncryptionService)
    (nonce : list byte) (panel : PterodactylApi) : PterodactylApi :=
  mkApi (createLocation panel) (createNode panel) (createAllocation panel)
    (getNodeConfiguration panel)
    (fun apiKey => snd (Vault.encrypt vault nonce apiKey)).

(** [metrics] of [updateHeartbeat], of type [any]: the three usage figures
    go to Prisma as they come (numbers, as the columns of [NodeMetric] are
    modelled), the two counters go through [BigInt]. *)
Record Metrics : Type := mkMetrics {
  m_cpuUsage : Z;
  m_memoryUsage : Z;
  m_diskUsage : Z;
  m_networkRx : Figure;
  m_networkTx : Figure
}.

(** [data] of the [prisma.node.update] in [updateHeartbeat]. *)
Definition heartbeat_data (now : Z) (node : Node) : Node :=
  mkNode (tenantId node) (name node) (fqdn node) (publicIp node) (privateIp node)
    (cpuCores node) (memoryMb node) (diskGb node)
    NodeStatus.online
    (enrollmentToken node) (enrollmentExpiresAt node)
    (pterodactylId node) (locationId node) (daemonToken node)
    (Some now)
    (agentVersion node) (wingsVersion node).

(** [data] of the [prisma.nodeMetric.create] in [updateHeartbeat]: the
    object literal is evaluated key by key, and [BigInt(metrics.networkRx)]
    or [BigInt(metrics.networkTx)] may throw. *)
Definition metric_row (now : Z) (nodeId : string) (metrics : Metrics)
    : result NodeMetric :=
  rx ← BigInt (m_networkRx metrics);
  tx ← BigInt (m_networkTx metrics);
  mret (mkNodeMetric nodeId (m_cpuUsage metrics) (m_memoryUsage metrics)
          (m_diskUsage metrics) rx tx now).

(** [updateHeartbeat(nodeId, metrics)] *)
Definition updateHeartbeat (now : Z) (nodeId : string) (metrics : Metrics)
    : Prisma unit :=
  await _ <- node_update nodeId (heartbeat_data now);
  await row <- lift (metric_row now nodeId metrics);
  await _ <- nodeMetric_create row;
  ret tt.

End Nodes.

(** ** Heartbeat processor: [AgentService] and [AgentController] *)

Module Jwt.

(** An [expiresIn] option in the notation of the [ms] package: ['30d'] is
    [Days 30]. *)
Inductive Span : Type := Days (n : Z).

Definition span_seconds (span : Span) : Z :=
  match span with
  | Days n => n * 86400
  end.

(** A decoded token: the claims that were signed and the [iat] and [exp]
    claims the library adds, in seconds. *)
Record Payload : Type := mkPayload {
  claims : list (string * string);
  iat : Z;
  exp : Z
}.

(** [payload.<name>] *)
Definition claim (name : string) (payload : list (string * string)) : option string :=
  snd <$> List.find (fun kv => String.eqb (fst kv) name) payload.

(** [JwtService] of @nestjs/jwt: [sign(payload, { secret, expiresIn })] and
    [verify(token, { secret })], each at the time [now] in milliseconds. *)
Class JwtService : Type := {
  sign : list (string * string) -> option string -> Span -> Z -> result string;
  verify : string -> option string -> Z -> result Payload
}.

(** What is relied on: signing with a secret succeeds, and the token verifies
    under the same secret, until it expires, to the signed claims with
    [iat] the time of signing and [exp = iat + expiresIn]. *)
Class JwtLaws (J : JwtService) : Prop := {
  sign_verify : forall payload secret span now,
    secret <> "" ->
    exists token,
      sign payload (Some secret) span now = Ok token /\
      forall now', now <= now' -> now' / 1000 < now / 1000 + span_seconds span ->
        verify token (Some secret) now' =
          Ok (mkPayload payload (now / 1000) (now / 1000 + span_seconds span))
}.

End Jwt.

Module Agent.

Section AgentService.
Context {J : Jwt.JwtService}.

(** [configService.get], fixed when the application starts. *)
Variable configService_get : string -> option string.

(** The node [authenticateAgent] returns: the row, its id and its tenant. *)
Record AuthenticatedNode : Type := mkAuthenticated {
  id : string;
  node : Node;
  tenant : option Tenant
}.

(** The body of [authenticateAgent]'s [try] block. *)
Definition authenticateAgent_body (now : Z) (token : string) : Prisma AuthenticatedNode :=
  await payload <- lift (Jwt.verify token (configService_get "AGENT_TOKEN_SECRET") now);
  match Jwt.claim "nodeId" (Jwt.claims payload) with
  | None => throw (Error "Invalid prisma.node.findUnique() invocation")
  | Some nodeId =>
      await node <- node_findUnique_id nodeId;
      match node with
      | None => throw (UnauthorizedException "Node not found")
      | Some node =>
          fun db => (db, Ok (mkAuthenticated nodeId node (tenants db !! tenantId node)))
      end
  end.

(** [authenticateAgent(token)]: whatever the body throws is replaced (and
    logged, which is not part of the state kept here). *)
Definition authenticateAgent (now : Z) (token : string) : Prisma AuthenticatedNode :=
  fun db =>
    match authenticateAgent_body now token db with
    | (db', Ok node) => (db', Ok node)
    | (db', Throw _) => (db', Throw (UnauthorizedException "Invalid agent token"))
    end.

(** [payload] of [generateAgentToken]. *)
Definition agentTokenPayload (nodeId : string) : list (string * string) :=
  [("nodeId", nodeId); ("type", "agent")].

Definition agentTokenExpiresIn : Jwt.Span := Jwt.Days 30.

(** [generateAgentToken(nodeId)] *)
Definition generateAgentToken (now : Z) (nodeId : string) : result string :=
  Jwt.sign (agentTokenPayload nodeId) (configService_get "AGENT_TOKEN_SECRET")
    agentTokenExpiresIn now.

(** [metrics.system], of type [any]: the three usage figures go to Prisma
    as they come (numbers, as the columns of [NodeMetric] are modelled), the
    two counters go through [BigInt(x || 0)]. *)
Record SystemMetrics : Type := mkSystem {
  s_cpuUsage : Z;
  s_memoryUsage : Z;
  s_diskUsage : Z;
  s_networkRx : Figure;
  s_networkTx : Figure
}.

(** [metrics], the body of a heartbeat request. *)
Record HeartbeatBody : Type := mkHeartbeat {
  hb_agentVersion : option string;
  hb_wingsVersion : option string;
  system : option SystemMetrics
}.

(** [data] of the [prisma.node.update] in [handleHeartbeat]. *)
Definition heartbeat_data (now : Z) (metrics : HeartbeatBody) (node : Node) : Node :=
  mkNode (tenantId node) (name node) (fqdn node) (publicIp node) (privateIp node)
    (cpuCores node) (memoryMb node) (diskGb node)
    NodeStatus.online
    (enrollmentToken node) (enrollmentExpiresAt node)
    (pterodactylId node) (locationId node) (daemonToken node)
    (Some now)
    (set_if_defined (hb_agentVersion metrics) (agentVersion node))
    (set_if_defined (hb_wingsVersion metrics) (wingsVersion node)).

(** [data] of the [prisma.nodeMetric.create] in [handleHeartbeat]: the
    object literal is evaluated key by key, and
    [BigInt(metrics.system.networkRx || 0)] or its like for [networkTx] may
    throw. *)
Definition metric_row (now : Z) (nodeId : string) (s : SystemMetrics)
    : result NodeMetric :=
  rx ← BigInt (or_zero (s_networkRx s));
  tx ← BigInt (or_zero (s_networkTx s));
  mret (mkNodeMetric nodeId (s_cpuUsage s) (s_memoryUsage s) (s_diskUsage s) rx tx now).

(** What [handleHeartbeat] does after the update of the node: the metric
    rows it is about to store (one when the body has a [system] part), or
    what the making of the row throws. *)
Definition metric_rows (now : Z) (nodeId : string) (metrics : HeartbeatBody)
    : result (list NodeMetric) :=
  match system metrics with
  | Some s => row ← metric_row now nodeId s; mret [row]
  | None => mret []
  end.

(** The metric rows one [handleHeartbeat] adds. *)
Definition rows_added (now : Z) (nodeId : string) (metrics : HeartbeatBody)
    : list NodeMetric :=
  match metric_rows now nodeId metrics with
  | Ok rows => rows
  | Throw _ => []
  end.

(** What [handleHeartbeat] returns: [{ status: 'ok' }]. *)
Record HeartbeatReply : Type := mkReply { reply_status : string }.

(** [handleHeartbeat(nodeId, metrics)] *)
Definition handleHeartbeat (now : Z) (nodeId : string) (metrics : HeartbeatBody)
    : Prisma HeartbeatReply :=
  await _ <- node_update nodeId (heartbeat_data now metrics);
  await _ <- match system metrics with
             | Some s =>
                 await row <- lift (metric_row now nodeId s);
                 nodeMetric_create row
             | None => ret tt
             end;
  ret (mkReply "ok").


End AgentService.

End Agent.

(** ** Instances of the library interfaces, for evaluation

    Small implementations of [Vault.Runtime] and [Jwt.JwtService] that
    satisfy the laws relied on.  They make the services run inside Rocq on
    concrete inputs; they are not ciphers. *)

Module Model.

Definition hex_digit (n : N) : ascii :=
  ascii_of_N (if (n <? 10)%N then 48 + n else 87 + n)%N.

Definition hex_value (c : ascii) : option N :=
  let n := N_of_ascii c in
  if ((48 <=? n) && (n <=? 57))%N then Some (n - 48)%N
  else if ((97 <=? n) && (n <=? 102))%N then Some (n - 87)%N
  else if ((65 <=? n) && (n <=? 70))%N then Some (n - 55)%N
  else None.

Fixpoint hex_encode (bytes : list byte) : string :=
  match bytes with
  | [] => ""
  | b :: rest =>
      let n := Byte.to_N b in
      String (hex_digit (n / 16)) (String (hex_digit (n mod 16)) (hex_encode rest))
  end.

(** Pairs of hexadecimal digits, up to the first pair that is not one. *)
Fixpoint hex_decode (s : string) : list byte :=
  match s with
  | String hi (String lo rest) =>
      match hex_value hi, hex_value lo with
      | Some h, Some l =>
          match Byte.of_N (16 * h + l) with
          | Some b => b :: hex_decode rest
          | None => []
          end
      | _, _ => []
      end
  | _ => []
  end.

(** Base64 as Buffer writes and reads it.  Reading is lenient: characters
    outside the alphabet are skipped, the URL-safe [-] and [_] count as [+]
    and [/], reading stops at the first [=], missing padding is not asked
    for, and the bits of the last character that no byte needs are
    dropped. *)
Definition base64_alphabet : string :=
  "ABCDEFGHIJKLMNOPQRSTUVWXYZabcdefghijklmnopqrstuvwxyz0123456789+/".

Definition base64_char (v : N) : ascii :=
  default "="%char (String.get (N.to_nat v) base64_alphabet).

Definition base64_value (c : ascii) : option N :=
  let n := N_of_ascii c in
  if ((65 <=? n) && (n <=? 90))%N then Some (n - 65)%N
  else if ((97 <=? n) && (n <=? 122))%N then Some (n - 71)%N
  else if ((48 <=? n) && (n <=? 57))%N then Some (n + 4)%N
  else if ((n =? 43) || (n =? 45))%N then Some 62%N
  else if ((n =? 47) || (n =? 95))%N then Some 63%N
  else None.

Definition byte_of_N (n : N) : byte := default x00 (Byte.of_N n).

Fixpoint base64_encode (bytes : list byte) : string :=
  match bytes with
  | [] => ""
  | [a] =>
      let a := Byte.to_N a in
      String (base64_char (a / 4)) (String (base64_char (a mod 4 * 16)) "==")
  | [a; b] =>
      let a := Byte.to_N a in
      let b := Byte.to_N b in
      String (base64_char (a / 4))
        (String (base64_char (a mod 4 * 16 + b / 16))
           (String (base64_char (b mod 16 * 4)) "="))
  | a :: b :: c :: rest =>
      let a := Byte.to_N a in
      let b := Byte.to_N b in
      let c := Byte.to_N c in
      String (base64_char (a / 4))
        (String (base64_char (a mod 4 * 16 + b / 16))
           (String (base64_char (b mod 16 * 4 + c / 64))
              (String (base64_char (c mod 64)) (base64_encode rest))))
  end%N.

(** The six-bit values of the characters read. *)
Fixpoint base64_sextets (s : string) : list N :=
  match s with
  | EmptyString => []
  | String c rest =>
      if Ascii.eqb c "=" then []
      else match base64_value c with
           | Some v => v :: base64_sextets rest
           | None => base64_sextets rest
           end
  end.

Fixpoint base64_bytes (sextets : list N) : list byte :=
  match sextets with
  | s1 :: s2 :: s3 :: s4 :: rest =>
      byte_of_N (s1 * 4 + s2 / 16) :: byte_of_N (s2 mod 16 * 16 + s3 / 4)
        :: byte_of_N (s3 mod 4 * 64 + s4) :: base64_bytes rest
  | [s1; s2; s3] =>
      [byte_of_N (s1 * 4 + s2 / 16); byte_of_N (s2 mod 16 * 16 + s3 / 4)]
  | [s1; s2] => [byte_of_N (s1 * 4 + s2 / 16)]
  | _ => []
  end%N.

Definition base64_decode (s : string) : list byte := base64_bytes (base64_sextets s).

(** Strings of this instance: a [String.string] holds the UTF-8 bytes of the
    JavaScript string, a lone surrogate being written like any code point of
    its range (the three bytes [ED A0..BF 80..BF], which UTF-8 excludes). *)
Definition replacement_character : list byte := [xef; xbf; xbd].

(** The state of the UTF-8 decoder between two bytes: the bytes of the
    sequence read so far, how many are still to come and the range the next
    one must be in. *)
Record Decoder : Type := mkDecoder {
  seen : list byte;
  needed : nat;
  lower : N;
  upper : N
}.

Definition idle : Decoder := mkDecoder [] 0 128 191.

(** A byte read when no sequence is open: what is written and the state
    after. *)
Definition utf8_lead (b : byte) : list byte * Decoder :=
  let n := Byte.to_N b in
  if (n <=? 127)%N then ([b], idle)
  else if ((194 <=? n) && (n <=? 223))%N then ([], mkDecoder [b] 1 128 191)
  else if ((224 <=? n) && (n <=? 239))%N then
    ([], mkDecoder [b] 2 (if (n =? 224)%N then 160 else 128)
                         (if (n =? 237)%N then 159 else 191))
  else if ((240 <=? n) && (n <=? 244))%N then
    ([], mkDecoder [b] 3 (if (n =? 240)%N then 144 else 128)
                         (if (n =? 244)%N then 143 else 191))
  else (replacement_character, idle).

(** The decoder of [buf.toString('utf8')]: a sequence that is UTF-8 is
    copied; one that breaks off is written as U+FFFD and the byte it broke
    off at is read again. *)
Fixpoint utf8_scan (state : Decoder) (bytes : list byte) : list byte :=
  match bytes with
  | [] =>
      match needed state with
      | O => []
      | S _ => replacement_character
      end
  | b :: rest =>
      match needed state with
      | O => let '(out, next) := utf8_lead b in (out ++ utf8_scan next rest)%list
      | S more =>
          let n := Byte.to_N b in
          if ((lower state <=? n) && (n <=? upper state))%N then
            match more with
            | O => (seen state ++ b :: utf8_scan idle rest)%list
            | S _ => utf8_scan (mkDecoder (seen state ++ [b]) more 128 191) rest
            end
          else
            let '(out, next) := utf8_lead b in
            (replacement_character ++ out ++ utf8_scan next rest)%list
      end
  end.

Definition utf8_decode (bytes : list byte) : string :=
  String.string_of_list_byte (utf8_scan idle bytes).

(** A string is well formed when its bytes are UTF-8: the decoder copies
    them. *)
Definition isWellFormed (s : string) : bool :=
  bool_decide (utf8_scan idle (String.list_byte_of_string s)
               = String.list_byte_of_string s).

(** U+FFFD for each lone surrogate. *)
Fixpoint replace_surrogates (bytes : list byte) : list byte :=
  match bytes with
  | [] => []
  | a :: tail =>
      match tail with
      | b :: _ :: rest =>
          if Byte.eqb a xed && (160 <=? Byte.to_N b)%N
          then (replacement_character ++ replace_surrogates rest)%list
          else a :: replace_surrogates tail
      | _ => a :: replace_surrogates tail
      end
  end.

(** [Buffer.from(s, 'utf8')]: the bytes of a well-formed string as they
    are. *)
Definition utf8_encode (s : string) : list byte :=
  if isWellFormed s then String.list_byte_of_string s
  else replace_surrogates (String.list_byte_of_string s).

Definition sizes_fit (nonce key : list byte) : bool :=
  Nat.eqb (length nonce) 24 && Nat.eqb (length key) 32.

(** The box of this instance: the message behind a tag taken from the key. *)
Definition secretbox_easy (message nonce key : list byte) : result (list byte) :=
  if sizes_fit nonce key then Ok (take 16 key ++ message)%list
  else Throw (TypeError "nonce or key of the wrong size").

Definition secretbox_open_easy (ciphertext nonce key : list byte)
    : result (option (list byte)) :=
  if sizes_fit nonce key then
    if bool_decide (take 16 ciphertext = take 16 key) && (16 <=? length ciphertext)%nat
    then Ok (Some (drop 16 ciphertext))
    else Ok None
  else Throw (TypeError "nonce or key of the wrong size").

Definition runtime : Vault.Runtime := {|
  Vault.crypto_secretbox_KEYBYTES := 32;
  Vault.crypto_secretbox_NONCEBYTES := 24;
  Vault.crypto_secretbox_MACBYTES := 16;
  Vault.crypto_secretbox_easy := secretbox_easy;
  Vault.crypto_secretbox_open_easy := secretbox_open_easy;
  Vault.base64_encode := base64_encode;
  Vault.base64_decode := base64_decode;
  Vault.hex_encode := hex_encode;
  Vault.hex_decode := hex_decode;
  Vault.utf8_encode := utf8_encode;
  Vault.utf8_decode := utf8_decode;
  Vault.isWellFormed := isWellFormed
|}.

(** The tokens of this instance: the claims, the two dates and the secret,
    numbered by [encode] and written in binary. *)
Fixpoint bits_of_positive (p : positive) : string :=
  match p with
  | xH => ""
  | xO q => String "0" (bits_of_positive q)
  | xI q => String "1" (bits_of_positive q)
  end.

Fixpoint positive_of_bits (s : string) : option positive :=
  match s with
  | EmptyString => Some xH
  | String c rest =>
      match positive_of_bits rest with
      | Some q =>
          if Ascii.eqb c "0" then Some (xO q)
          else if Ascii.eqb c "1" then Some (xI q)
          else None
      | None => None
      end
  end.

Definition Signed : Type := list (string * string) * Z * Z * string.

Definition jwt_sign (payload : list (string * string)) (secret : option string)
    (span : Jwt.Span) (now : Z) : result string :=
  match secret with
  | Some s =>
      if String.eqb s "" then Throw (Error "secretOrPrivateKey must have a value")
      else
        let iat := now / 1000 in
        Ok (bits_of_positive (encode ((payload, iat, iat + Jwt.span_seconds span, s) : Signed)))
  | None => Throw (Error "secretOrPrivateKey must have a value")
  end.

Definition jwt_verify (token : string) (secret : option string) (now : Z)
    : result Jwt.Payload :=
  match (positive_of_bits token ≫= decode : option Signed) with
  | Some (payload, iat, exp, s) =>
      if bool_decide (secret = Some s) then
        if now / 1000 <? exp then Ok (Jwt.mkPayload payload iat exp)
        else Throw (Error "jwt expired")
      else Throw (Error "invalid signature")
  | None => Throw (Error "jwt malformed")
  end.

Definition jwt : Jwt.JwtService := {|
  Jwt.sign := jwt_sign;
  Jwt.verify := jwt_verify
|}.

End Model.

(** ** Concrete data

    A small fleet, a request each way and the dependencies of the services,
    on which the services are run below. *)

Module Examples.

Definition key_hex : string :=
  "000102030405060708090a0b0c0d0e0f101112131415161718191a1b1c1d1e1f".

Definition other_key_hex : string :=
  "ff0102030405060708090a0b0c0d0e0f101112131415161718191a1b1c1d1e1f".

Definition nonce : list byte := repeat x2a 24.

(** The vault of the running application, over [Model.runtime]. *)
Definition vault : Vault.EncryptionService :=
  Vault.mkEncryptionService (Model.hex_decode key_hex).

Definition other_vault : Vault.EncryptionService :=
  Vault.mkEncryptionService (Model.hex_decode other_key_hex).

(** ['a\ud800b'], a string with a lone surrogate, and ['a\ufffdb']. *)
Definition lone_surrogate : string :=
  String.string_of_list_byte [x61; xed; xa0; x80; x62].

Definition replaced_surrogate : string :=
  String.string_of_list_byte [x61; xef; xbf; xbd; x62].


Definition configService_get (name : string) : option string :=
  if String.eqb name "PTERODACTYL_URL" then Some "https://panel.example.com"
  else if String.eqb name "PTERODACTYL_API_KEY" then Some "ptla_plain_text_key"
  else if String.eqb name "AGENT_TOKEN_SECRET" then Some "agent-secret"
  else if String.eqb name "ENCRYPTION_KEY" then Some key_hex
  else None.

Definition tenant_id : string := "tenant-0001-abcd".

(** A node as [generateEnrollmentToken] creates it. *)
Definition created (token : string) (expiresAt : Z) : Node :=
  mkNode tenant_id "Pending Node" "pending" "0.0.0.0" None 0 0 0
    NodeStatus.pending (Some token) (Some expiresAt)
    None None None None None None.

(** The same node in another state, its token consumed. *)
Definition in_status (status : NodeStatus.t) : Node :=
  mkNode tenant_id "edge-1" "edge-1.example.com" "203.0.113.7" (Some "10.0.0.7") 8 16384 200
    status None None (Some 42) (Some 7) (Some "sealed") None None None.

Definition fleet (node : Node) : Db :=
  mkDb {[ "n1" := node ]} {[ tenant_id := mkTenant "Acme" ]} [].

(** One day, in milliseconds: the node below expires at that time. *)
Definition day : Z := 86400000.

Definition db_pending : Db := fleet (created "tok-abc123" day).

Definition nodeData : NodeData.t :=
  NodeData.mk "edge-1" "edge-1.example.com" "203.0.113.7" (Some "10.0.0.7") 8 16384 200.

(** A Pterodactyl panel that accepts every request. *)
Definition panel : Nodes.PterodactylApi :=
  Nodes.mkApi
    (fun _ => Ok (PterodactylLocation.mk 7))
    (fun _ => Ok (PterodactylNode.mk 42 "daemon-token"))
    (fun _ _ => Ok tt)
    (fun _ => Ok "wings configuration")
    (fun apiKey => snd (Vault.encrypt (R := Model.runtime) vault nonce apiKey)).

Definition heartbeat_body : Agent.HeartbeatBody :=
  Agent.mkHeartbeat (Some "1.0.0") (Some "1.11.0")
    (Some (Agent.mkSystem 1250 4075 6000 (Integer 1024) (Integer 2048))).

(** The same body with a counter that is not an integer. *)
Definition fractional_body : Agent.HeartbeatBody :=
  Agent.mkHeartbeat (Some "1.0.0") (Some "1.11.0")
    (Some (Agent.mkSystem 1250 4075 6000 (NotInteger "1024.5") (Integer 2048))).

(** The client as its constructor leaves it for [configService_get]. *)
Definition client : Orchestration.PterodactylService :=
  Orchestration.mkPterodactylService "https://panel.example.com"
    "ptla_plain_text_key" vault.

Definition bad_request : Orchestration.AxiosError :=
  Orchestration.mkAxiosError "Request failed with status code 400" (Some 400) None.

Definition unavailable : Orchestration.AxiosError :=
  Orchestration.mkAxiosError "Request failed with status code 503" (Some 503) None.

Definition timed_out : Orchestration.AxiosError :=
  Orchestration.mkAxiosError "timeout of 30000ms exceeded" None None.

End Examples.

(** * Properties *)

(** ** The instances satisfy the laws *)

Ltac euclid := zify; Z.to_euclidean_division_equations; lia.

Lemma base64_value_char (v : N) :
  (v < 64)%N ->
  Ascii.eqb (Model.base64_char v) "=" = false /\
  Model.base64_value (Model.base64_char v) = Some v.
Proof.
  intros Hv.
  assert (Hall : forallb (fun n => negb (Ascii.eqb (Model.base64_char (N.of_nat n)) "=")
                           && bool_decide (Model.base64_value (Model.base64_char (N.of_nat n))
                                           = Some (N.of_nat n)))
                   (seq 0 64) = true) by (vm_compute; reflexivity).
  rewrite forallb_forall in Hall.
  specialize (Hall (N.to_nat v)).
  rewrite N2Nat.id in Hall.
  assert (Hin : In (N.to_nat v) (seq 0 64)) by (apply in_seq; lia).
  apply Hall in Hin. apply andb_prop in Hin as [Hpad Hvalue].
  split; [destruct (Ascii.eqb _ _); [discriminate | reflexivity] |].
  exact (bool_decide_eq_true_1 _ Hvalue).
Qed.

Lemma base64_sextets_char (v : N) (rest : string) :
  (v < 64)%N ->
  Model.base64_sextets (String (Model.base64_char v) rest) = v :: Model.base64_sextets rest.
Proof.
  intros Hv. destruct (base64_value_char v Hv) as [Hpad Hvalue].
  cbn [Model.base64_sextets]. rewrite Hpad, Hvalue. reflexivity.
Qed.

Lemma byte_of_N_eq (n : N) (b : byte) : n = Byte.to_N b -> Model.byte_of_N n = b.
Proof. intros ->. unfold Model.byte_of_N. rewrite Byte.of_to_N. reflexivity. Qed.

Lemma list_ind3 {A} (P : list A -> Prop) :
  P [] -> (forall a, P [a]) -> (forall a b, P [a; b]) ->
  (forall a b c rest, P rest -> P (a :: b :: c :: rest)) ->
  forall l, P l.
Proof.
  intros H0 H1 H2 H3.
  fix IH 1. intros [| a [| b [| c rest]]];
    [exact H0 | apply H1 | apply H2 | apply H3, IH].
Qed.

(** Reading back what was written as base64 gives the bytes. *)
Lemma base64_model_roundtrip (bytes : list byte) :
  Model.base64_decode (Model.base64_encode bytes) = bytes.
Proof.
  unfold Model.base64_decode.
  induction bytes as [| a | a b | a b c rest IH] using list_ind3.
  - reflexivity.
  - cbn [Model.base64_encode].
    pose proof (Byte.to_N_bounded a).
    rewrite !base64_sextets_char by euclid. cbn.
    f_equal. apply byte_of_N_eq. euclid.
  - cbn [Model.base64_encode].
    pose proof (Byte.to_N_bounded a). pose proof (Byte.to_N_bounded b).
    rewrite !base64_sextets_char by euclid. cbn.
    repeat f_equal; apply byte_of_N_eq; euclid.
  - cbn [Model.base64_encode].
    pose proof (Byte.to_N_bounded a). pose proof (Byte.to_N_bounded b).
    pose proof (Byte.to_N_bounded c).
    rewrite !base64_sextets_char by euclid. cbn [Model.base64_bytes].
    rewrite IH.
    repeat f_equal; apply byte_of_N_eq; euclid.
Qed.

Lemma model_runtime_laws : Vault.RuntimeLaws Model.runtime.
Proof.
  split.
  - intros message nonce key Hn Hk. cbn in Hn, Hk.
    exists (take 16 key ++ message)%list. cbn.
    unfold Model.secretbox_easy, Model.secretbox_open_easy, Model.sizes_fit.
    rewrite Hn, Hk. cbn [Nat.eqb andb].
    assert (Hlen : length (take 16 key) = 16%nat) by (rewrite length_take; lia).
    repeat split.
    + rewrite length_app, Hlen. lia.
    + rewrite take_app_length' by (symmetry; exact Hlen).
      rewrite bool_decide_eq_true_2 by reflexivity.
      rewrite drop_app_length' by (symmetry; exact Hlen).
      rewrite length_app, Hlen. reflexivity.
  - intros data. cbn. apply base64_model_roundtrip.
Qed.

Lemma model_utf8_laws : Vault.Utf8Laws Model.runtime.
Proof.
  split. intros s Hwell. cbn in *.
  unfold Model.utf8_decode, Model.utf8_encode. rewrite Hwell.
  unfold Model.isWellFormed in Hwell. apply bool_decide_eq_true_1 in Hwell.
  rewrite Hwell. apply String.string_of_list_byte_of_string.
Qed.

Lemma positive_of_bits_of_positive (p : positive) :
  Model.positive_of_bits (Model.bits_of_positive p) = Some p.
Proof.
  induction p as [q IH | q IH |]; cbn; [rewrite IH | rewrite IH |]; reflexivity.
Qed.

Lemma model_jwt_laws : Jwt.JwtLaws Model.jwt.
Proof.
  split. intros payload secret span now Hsecret. cbn.
  unfold Model.jwt_sign, Model.jwt_verify.
  destruct (String.eqb_spec secret "") as [-> | _]; [congruence |].
  eexists. split; [reflexivity |].
  intros now' _ Hfresh.
  rewrite positive_of_bits_of_positive. cbn.
  rewrite decode_encode.
  rewrite bool_decide_eq_true_2 by reflexivity.
  apply Z.ltb_lt in Hfresh. rewrite Hfresh. reflexivity.
Qed.

(** ** Secret vault *)

Section VaultProperties.
Context {R : Vault.Runtime}.

(** A service that was constructed holds a key of [crypto_secretbox_KEYBYTES]
    bytes: any other length stops the constructor. *)
Lemma new_EncryptionService_key_length (keyHex : option string)
    (this : Vault.EncryptionService) :
  Vault.new_EncryptionService keyHex = Ok this ->
  length (Vault.key this) = Vault.crypto_secretbox_KEYBYTES.
Proof.
  unfold Vault.new_EncryptionService.
  destruct keyHex as [hex |]; [| discriminate].
  destruct (String.eqb hex ""); [discriminate |].
  destruct (Nat.eqb_spec (length (Vault.hex_decode hex)) Vault.crypto_secretbox_KEYBYTES)
    as [Hlen | Hlen]; cbn; [| discriminate].
  intros [= <-]. exact Hlen.
Qed.

(** [decrypt] has two outcomes only: the plaintext with nothing logged, or
    the one error ['Decryption failed'] with the cause sent to the log. *)
Lemma decrypt_outcomes (this : Vault.EncryptionService) (encryptedData : string) :
  (exists plaintext,
      Vault.decrypt_body this encryptedData = Ok plaintext /\
      Vault.decrypt this encryptedData = ([], Ok plaintext)) \/
  (exists cause,
      Vault.decrypt_body this encryptedData = Throw cause /\
      Vault.decrypt this encryptedData =
        ([mkLog Vault.logger_context LogError "Decryption failed:" (Some cause)],
         Throw (Error "Decryption failed"))).
Proof.
  unfold Vault.decrypt.
  destruct (Vault.decrypt_body this encryptedData) as [plaintext | cause]; eauto.
Qed.

(** [decrypt] returns a plaintext only for a blob that is long enough and
    whose box libsodium opens, and then it is the message of the box. *)
Lemma decrypt_returns_only_opened (this : Vault.EncryptionService)
    (encryptedData plaintext : string) :
  snd (Vault.decrypt this encryptedData) = Ok plaintext ->
  let data := Vault.base64_decode encryptedData in
  (Vault.crypto_secretbox_NONCEBYTES + Vault.crypto_secretbox_MACBYTES <= length data)%nat /\
  exists message,
    Vault.crypto_secretbox_open_easy
      (drop Vault.crypto_secretbox_NONCEBYTES data)
      (take Vault.crypto_secretbox_NONCEBYTES data)
      (Vault.key this) = Ok (Some message) /\
    plaintext = Vault.utf8_decode message.
Proof.
  unfold Vault.decrypt, Vault.decrypt_body. cbn zeta.
  destruct (Nat.ltb_spec (length (Vault.base64_decode encryptedData))
              (Vault.crypto_secretbox_NONCEBYTES + Vault.crypto_secretbox_MACBYTES))
    as [Hshort | Hlong]; [discriminate |].
  destruct (Vault.crypto_secretbox_open_easy _ _ _) as [[message |] | e];
    cbn; try discriminate.
  intros [= <-]. split; [exact Hlong | eauto].
Qed.


Context {L : Vault.RuntimeLaws R}.

(** Any blob [encrypt] returned is read by [decrypt], with nothing logged,
    as what [toString('utf8')] makes of the bytes [Buffer.from] made of the
    plaintext. *)
Lemma encrypt_then_decrypt (this : Vault.EncryptionService) (nonce : list byte)
    (plaintext blob : string) :
  length (Vault.key this) = Vault.crypto_secretbox_KEYBYTES ->
  length nonce = Vault.crypto_secretbox_NONCEBYTES ->
  snd (Vault.encrypt this nonce plaintext) = Ok blob ->
  Vault.decrypt this blob = ([], Ok (Vault.utf8_decode (Vault.utf8_encode plaintext))).
Proof.
  intros Hkey Hnonce.
  destruct (Vault.secretbox_roundtrip (Vault.utf8_encode plaintext) nonce
              (Vault.key this) Hnonce Hkey) as (box & Hbox & Hlen & Hopen).
  unfold Vault.encrypt, Vault.encrypt_body. cbn zeta. rewrite Hbox. cbn.
  intros [= <-].
  unfold Vault.decrypt, Vault.decrypt_body. cbn zeta.
  rewrite Vault.base64_roundtrip.
  replace (length (nonce ++ box)%list <?
           Vault.crypto_secretbox_NONCEBYTES + Vault.crypto_secretbox_MACBYTES)%nat
    with false
    by (symmetry; apply Nat.ltb_ge; rewrite length_app, Hnonce, Hlen; lia).
  rewrite take_app_length' by (symmetry; exact Hnonce).
  rewrite drop_app_length' by (symmetry; exact Hnonce).
  rewrite Hopen. reflexivity.
Qed.

Context {U : Vault.Utf8Laws R}.

(** C6, as amended.  With the key the service was constructed with, and
    whatever nonce [randombytes_buf] draws, [encrypt] returns
    [base64(nonce ++ box)], where [box] is the authenticated ciphertext of
    the plaintext's UTF-8 bytes ([MACBYTES] longer than them), and [decrypt]
    of that blob returns what [toString('utf8')] reads from those bytes:
    the plaintext itself when it is a well-formed string. *)
Theorem decrypt_encrypt_roundtrip (keyHex : option string)
    (this : Vault.EncryptionService) (nonce : list byte) (x : string) :
  Vault.new_EncryptionService keyHex = Ok this ->
  length nonce = Vault.crypto_secretbox_NONCEBYTES ->
  exists box,
    Vault.crypto_secretbox_easy (Vault.utf8_encode x) nonce (Vault.key this) = Ok box /\
    length box = (length (Vault.utf8_encode x) + Vault.crypto_secretbox_MACBYTES)%nat /\
    Vault.encrypt this nonce x = ([], Ok (Vault.base64_encode (nonce ++ box)%list)) /\
    Vault.decrypt this (Vault.base64_encode (nonce ++ box)%list) =
      ([], Ok (Vault.utf8_decode (Vault.utf8_encode x))) /\
    (Vault.isWellFormed x = true ->
     Vault.decrypt this (Vault.base64_encode (nonce ++ box)%list) = ([], Ok x)).
Proof.
  intros Hnew Hnonce.
  pose proof (new_EncryptionService_key_length _ _ Hnew) as Hkey.
  destruct (Vault.secretbox_roundtrip (Vault.utf8_encode x) nonce
              (Vault.key this) Hnonce Hkey) as (box & Hbox & Hlen & Hopen).
  assert (Hencrypt : Vault.encrypt this nonce x =
                     ([], Ok (Vault.base64_encode (nonce ++ box)%list))).
  { unfold Vault.encrypt, Vault.encrypt_body. cbn zeta. rewrite Hbox. reflexivity. }
  assert (Hdecrypt : Vault.decrypt this (Vault.base64_encode (nonce ++ box)%list) =
                     ([], Ok (Vault.utf8_decode (Vault.utf8_encode x)))).
  { apply (encrypt_then_decrypt this nonce x); [exact Hkey | exact Hnonce |].
    rewrite Hencrypt. reflexivity. }
  exists box. split; [exact Hbox |]. split; [exact Hlen |].
  split; [exact Hencrypt |]. split; [exact Hdecrypt |].
  intros Hwell. rewrite Hdecrypt, (Vault.utf8_roundtrip x Hwell). reflexivity.
Qed.

End VaultProperties.

(** The vault run on [Model.runtime]. *)

Lemma decrypt_encrypt_roundtrip_witness :
  let R := Model.runtime in
  Vault.new_EncryptionService (Some Examples.key_hex) = Ok Examples.vault /\
  length Examples.nonce = 24%nat /\
  Vault.isWellFormed "daemon-token" = true /\
  exists box,
    Vault.crypto_secretbox_easy (Vault.utf8_encode "daemon-token")
      Examples.nonce (Vault.key Examples.vault) = Ok box /\
    length box = (length (Vault.utf8_encode "daemon-token")
                  + Vault.crypto_secretbox_MACBYTES)%nat /\
    Vault.encrypt Examples.vault Examples.nonce "daemon-token" =
      ([], Ok (Vault.base64_encode (Examples.nonce ++ box)%list)) /\
    Vault.decrypt Examples.vault (Vault.base64_encode (Examples.nonce ++ box)%list) =
      ([], Ok (Vault.utf8_decode (Vault.utf8_encode "daemon-token"))) /\
    (Vault.isWellFormed "daemon-token" = true ->
     Vault.decrypt Examples.vault (Vault.base64_encode (Examples.nonce ++ box)%list) =
       ([], Ok "daemon-token")).
Proof.
  intros R.
  split; [vm_compute; reflexivity |]. split; [reflexivity |].
  split; [vm_compute; reflexivity |].
  apply (@decrypt_encrypt_roundtrip Model.runtime model_runtime_laws model_utf8_laws
           (Some Examples.key_hex) Examples.vault Examples.nonce "daemon-token").
  - vm_compute; reflexivity.
  - reflexivity.
Defined.

(** C6, counterexample.  The string ['a\ud800b'] has a lone surrogate:
    [Buffer.from] writes it as U+FFFD, so what is sealed, and what [decrypt]
    returns for the blob [encrypt] made, is ['a\ufffdb'], another string. *)
Lemma lone_surrogate_is_not_restored :
  Model.isWellFormed Examples.lone_surrogate = false /\
  exists blob,
    Vault.encrypt (R := Model.runtime) Examples.vault Examples.nonce
      Examples.lone_surrogate = ([], Ok blob) /\
    Vault.decrypt (R := Model.runtime) Examples.vault blob =
      ([], Ok Examples.replaced_surrogate) /\
    Examples.replaced_surrogate <> Examples.lone_surrogate.
Proof.
  split; [vm_compute; reflexivity |]. eexists.
  split; [vm_compute; reflexivity |].
  split; [vm_compute; reflexivity | vm_compute; discriminate].
Qed.


(** A blob sealed by one vault and handed to a vault with another key, and a
    blob cut below the size of a nonce and a tag, fail alike. *)
Example decrypt_under_another_key :
  forall blob,
    snd (Vault.encrypt (R := Model.runtime) Examples.vault Examples.nonce "daemon-token") = Ok blob ->
    snd (Vault.decrypt (R := Model.runtime) Examples.other_vault blob) =
      Throw (Error "Decryption failed") /\
    snd (Vault.decrypt (R := Model.runtime) Examples.vault (String.substring 0 30 blob)) =
      Throw (Error "Decryption failed").
Proof. intros blob [= <-]. split; reflexivity. Qed.

(** ** Orchestration client: the retry loop *)

Section RetryProperties.
Context {R : Vault.Runtime} {D T : Type}.
Variable this : Orchestration.PterodactylService.
Variable http : nat -> Orchestration.AxiosRequestConfig D -> Orchestration.AxiosOutcome T.
Variable method : Orchestration.Method.
Variable endpoint : string.
Variable data : option D.

(** The config of every attempt, and what a trace keeps of it. *)
Abbreviation config := (Orchestration.request_config this method endpoint data).
Abbreviation request := (Orchestration.request_line config).
Abbreviation attempts := (Orchestration.attempts this http method endpoint data).
Abbreviation failed_attempts := (Orchestration.failed_attempts this method endpoint data).

(** One turn of the loop on a failed attempt. *)
Lemma attempts_failure (retries remaining attempt : nat)
    (error : Orchestration.AxiosError) :
  http attempt config = Orchestration.Failure error ->
  attempts retries (S remaining) attempt =
    if Nat.eqb attempt retries then
      ([Orchestration.Requested attempt request;
        Orchestration.LoggedFailure attempt retries endpoint error],
       Throw (HttpException
                ("Pterodactyl API request failed: " ++ Orchestration.error_message error)
                (Orchestration.status_or_500 error)))
    else
      (Orchestration.Requested attempt request
         :: Orchestration.LoggedFailure attempt retries endpoint error
         :: Orchestration.Slept (2 ^ Z.of_nat attempt * 1000)
         :: fst (attempts retries remaining (S attempt)),
       snd (attempts retries remaining (S attempt))).
Proof.
  intros Hfail. cbn [Orchestration.attempts]. cbv zeta. rewrite Hfail.
  destruct (Nat.eqb attempt retries); [reflexivity |].
  destruct (attempts retries remaining (S attempt)).
  reflexivity.
Qed.

(** The loop, entered at [attempt] with every attempt up to [retries]
    failing: each failure but the last is followed by a sleep of
    [2 ^ attempt] seconds and another attempt, the last by the exception. *)
Lemma attempts_all_fail (errors : nat -> Orchestration.AxiosError) (retries : nat) :
  forall remaining attempt,
    (attempt + remaining = retries)%nat ->
    (forall k, (attempt <= k <= retries)%nat ->
               http k config = Orchestration.Failure (errors k)) ->
    attempts retries (S remaining) attempt =
      ((failed_attempts retries errors remaining attempt ++
        [Orchestration.Requested retries request;
         Orchestration.LoggedFailure retries retries endpoint (errors retries)])%list,
       Throw (HttpException
                ("Pterodactyl API request failed: "
                 ++ Orchestration.error_message (errors retries))
                (Orchestration.status_or_500 (errors retries)))).
Proof.
  induction remaining as [| remaining IH]; intros attempt Hsum Hfail.
  - assert (attempt = retries) as -> by lia.
    rewrite attempts_failure with (error := errors retries) by (apply Hfail; lia).
    rewrite Nat.eqb_refl. reflexivity.
  - rewrite attempts_failure with (error := errors attempt) by (apply Hfail; lia).
    destruct (Nat.eqb_spec attempt retries) as [? | _]; [lia |].
    rewrite (IH (S attempt)) by (try lia; intros k Hk; apply Hfail; lia).
    reflexivity.
Qed.

(** The loop stops at the first response: after [count] failures, a response
    at the next attempt is returned without any further request. *)
Lemma attempts_stop_at_response (errors : nat -> Orchestration.AxiosError)
    (retries : nat) (response : T) :
  forall count remaining attempt,
    (attempt + count < attempt + remaining)%nat ->
    (attempt + remaining = S retries)%nat ->
    (forall k, (attempt <= k < attempt + count)%nat ->
               http k config = Orchestration.Failure (errors k)) ->
    http (attempt + count)%nat config = Orchestration.Response response ->
    attempts retries remaining attempt =
      ((failed_attempts retries errors count attempt ++
        [Orchestration.Requested (attempt + count) request])%list,
       Ok (Some response)).
Proof.
  induction count as [| count IH]; intros remaining attempt Hlt Hsum Hfail Hok.
  - destruct remaining as [| remaining]; [lia |].
    rewrite Nat.add_0_r in Hok |- *.
    cbn [Orchestration.attempts]. cbv zeta. rewrite Hok. reflexivity.
  - destruct remaining as [| remaining]; [lia |].
    rewrite attempts_failure with (error := errors attempt) by (apply Hfail; lia).
    destruct (Nat.eqb_spec attempt retries) as [? | _]; [lia |].
    replace (attempt + S count)%nat with (S attempt + count)%nat in * by lia.
    rewrite (IH remaining (S attempt)); try lia; try assumption.
    + reflexivity.
    + intros k Hk. apply Hfail. lia.
Qed.

(** [count] failed attempts starting with [attempt] are [count] requests. *)
Lemma requests_failed_attempts errors retries count attempt :
  Orchestration.requests (failed_attempts retries errors count attempt) =
    seq attempt count.
Proof.
  revert attempt. induction count as [| count IH]; intros attempt; [reflexivity |].
  cbn. unfold Orchestration.requests in IH. rewrite IH. reflexivity.
Qed.

(** The delays slept between [count] failed attempts double from one to the
    next, starting at two seconds. *)
Lemma delays_failed_attempts errors retries count attempt :
  Orchestration.delays (failed_attempts retries errors count attempt) =
    (fun k => 2 ^ Z.of_nat k * 1000) <$> seq attempt count.
Proof.
  revert attempt. induction count as [| count IH]; intros attempt; [reflexivity |].
  cbn. unfold Orchestration.delays in IH. rewrite IH. reflexivity.
Qed.

(** Every request of a call is sent with the one config built at its head:
    the client's [baseUrl] in the URL, its [apiKey] as bearer token. *)
Lemma attempts_request_lines (retries : nat) :
  forall remaining attempt line,
    line ∈ Orchestration.request_lines (fst (attempts retries remaining attempt)) ->
    line = request.
Proof.
  induction remaining as [| remaining IH]; intros attempt line.
  - cbn. intros Hin. inversion Hin.
  - cbn [Orchestration.attempts]. cbv zeta.
    destruct (http attempt config) as [response | error].
    + cbn. intros Hin. apply list_elem_of_singleton in Hin. exact Hin.
    + destruct (Nat.eqb attempt retries).
      * cbn. intros Hin. apply list_elem_of_singleton in Hin. exact Hin.
      * specialize (IH (S attempt) line).
        destruct (attempts retries remaining (S attempt)) as [events outcome].
        cbn in IH |- *. intros Hin.
        apply elem_of_cons in Hin as [-> | Hin]; [reflexivity | exact (IH Hin)].
Qed.

(** For any number of attempts [retries >= 1]: when every attempt fails,
    whatever the errors, [makeRequest] has sent [retries] requests, slept
    [2 ^ attempt] seconds after each failed attempt but the last, and throws
    an [HttpException] with the last error's status. *)
Theorem makeRequest_gives_up_after_retries (errors : nat -> Orchestration.AxiosError)
    (retries : nat) :
  (1 <= retries)%nat ->
  (forall k, (1 <= k <= retries)%nat ->
             http k config = Orchestration.Failure (errors k)) ->
  let run := Orchestration.makeRequest this http method endpoint data retries in
  Orchestration.requests (fst run) = seq 1 retries /\
  Orchestration.delays (fst run) =
    ((fun k => 2 ^ Z.of_nat k * 1000) <$> seq 1 (retries - 1)) /\
  snd run = Throw (HttpException
                     ("Pterodactyl API request failed: "
                      ++ Orchestration.error_message (errors retries))
                     (Orchestration.status_or_500 (errors retries))).
Proof.
  intros Hpositive Hfail run. subst run. unfold Orchestration.makeRequest.
  destruct retries as [| n]; [lia |].
  rewrite (attempts_all_fail errors (S n) n 1%nat) by (lia || exact Hfail).
  cbn [fst snd]. replace (S n - 1)%nat with n by lia.
  repeat split.
  - unfold Orchestration.requests. rewrite omap_app.
    fold (Orchestration.requests (failed_attempts (S n) errors n 1%nat)).
    rewrite requests_failed_attempts. cbn [omap]. rewrite seq_S. reflexivity.
  - unfold Orchestration.delays. rewrite omap_app. cbn. rewrite app_nil_r.
    apply delays_failed_attempts.
Qed.

(** For any number of attempts: the first response ends the loop. After
    [count < retries] failed attempts, a response to the next one is returned
    and no further request is sent. *)
Theorem makeRequest_returns_first_response (errors : nat -> Orchestration.AxiosError)
    (retries count : nat) (response : T) :
  (count < retries)%nat ->
  (forall k, (1 <= k <= count)%nat ->
             http k config = Orchestration.Failure (errors k)) ->
  http (S count) config = Orchestration.Response response ->
  let run := Orchestration.makeRequest this http method endpoint data retries in
  Orchestration.requests (fst run) = seq 1 (S count) /\
  Orchestration.delays (fst run) = ((fun k => 2 ^ Z.of_nat k * 1000) <$> seq 1 count) /\
  snd run = Ok (Some response).
Proof.
  intros Hcount Hfail Hok run. subst run. unfold Orchestration.makeRequest.
  rewrite (attempts_stop_at_response errors retries response count retries 1%nat);
    try lia; try assumption.
  - cbn [fst snd]. repeat split.
    + unfold Orchestration.requests. rewrite omap_app.
      fold (Orchestration.requests (failed_attempts retries errors count 1%nat)).
      rewrite requests_failed_attempts. cbn [omap]. rewrite seq_S. reflexivity.
    + unfold Orchestration.delays. rewrite omap_app. cbn. rewrite app_nil_r.
      apply delays_failed_attempts.
  - intros k Hk. apply Hfail. lia.
Qed.

(** C8, as amended.  With the default of three attempts, [makeRequest]
    treats every failed attempt alike, whatever its status (an HTTP 4xx as
    much as a 5xx, a timeout or a refused connection): the request is sent
    again after 2 s and then after 4 s, and after the third failure an
    [HttpException] with the last error's status is thrown. *)
Theorem makeRequest_retries_every_failure (e1 e2 e3 : Orchestration.AxiosError) :
  http 1%nat config = Orchestration.Failure e1 ->
  http 2%nat config = Orchestration.Failure e2 ->
  http 3%nat config = Orchestration.Failure e3 ->
  Orchestration.makeRequest this http method endpoint data Orchestration.default_retries =
    ([Orchestration.Requested 1 request;
      Orchestration.LoggedFailure 1 3 endpoint e1;
      Orchestration.Slept 2000;
      Orchestration.Requested 2 request;
      Orchestration.LoggedFailure 2 3 endpoint e2;
      Orchestration.Slept 4000;
      Orchestration.Requested 3 request;
      Orchestration.LoggedFailure 3 3 endpoint e3],
     Throw (HttpException
              ("Pterodactyl API request failed: " ++ Orchestration.error_message e3)
              (Orchestration.status_or_500 e3))).
Proof.
  intros H1 H2 H3.
  unfold Orchestration.makeRequest, Orchestration.default_retries.
  cbn [Orchestration.attempts]. cbv zeta.
  rewrite H1. cbn [Nat.eqb]. rewrite H2. cbn [Nat.eqb]. rewrite H3. cbn [Nat.eqb].
  reflexivity.
Qed.

End RetryProperties.

Lemma makeRequest_retries_every_failure_witness :
  let request :=
    Orchestration.mkRequestLine Orchestration.POST
      "https://panel.example.com/api/application/nodes"
      [("Authorization", "Bearer ptla_plain_text_key");
       ("Content-Type", "application/json");
       ("Accept", "application/json")] in
  Orchestration.makeRequest (T := unit) Examples.client
    (fun _ _ => Orchestration.Failure Examples.unavailable)
    Orchestration.POST "/nodes" (Some "node") Orchestration.default_retries =
    ([Orchestration.Requested 1 request;
      Orchestration.LoggedFailure 1 3 "/nodes" Examples.unavailable;
      Orchestration.Slept 2000;
      Orchestration.Requested 2 request;
      Orchestration.LoggedFailure 2 3 "/nodes" Examples.unavailable;
      Orchestration.Slept 4000;
      Orchestration.Requested 3 request;
      Orchestration.LoggedFailure 3 3 "/nodes" Examples.unavailable],
     Throw (HttpException
              "Pterodactyl API request failed: Request failed with status code 503" 503)).
Proof.
  apply (@makeRequest_retries_every_failure string unit Examples.client
           (fun _ _ => Orchestration.Failure Examples.unavailable)
           Orchestration.POST "/nodes" (Some "node")
           Examples.unavailable Examples.unavailable Examples.unavailable);
    reflexivity.
Defined.

Lemma makeRequest_gives_up_witness :
  let run := Orchestration.makeRequest (T := unit) Examples.client
               (fun _ _ => Orchestration.Failure Examples.timed_out)
               Orchestration.POST "/locations" (Some "location") 5 in
  Orchestration.requests (fst run) = [1; 2; 3; 4; 5]%nat /\
  Orchestration.delays (fst run) = [2000; 4000; 8000; 16000] /\
  snd run = Throw (HttpException
                     "Pterodactyl API request failed: timeout of 30000ms exceeded" 500).
Proof.
  apply (@makeRequest_gives_up_after_retries string unit Examples.client
           (fun _ _ => Orchestration.Failure Examples.timed_out)
           Orchestration.POST "/locations" (Some "location")
           (fun _ => Examples.timed_out) 5%nat);
    [lia | reflexivity].
Defined.

Lemma makeRequest_returns_first_response_witness :
  let run := Orchestration.makeRequest Examples.client
               (fun k _ => if Nat.eqb k 2 then Orchestration.Response "created"
                           else Orchestration.Failure Examples.unavailable)
               Orchestration.POST "/locations" (Some "location")
               Orchestration.default_retries in
  Orchestration.requests (fst run) = [1; 2]%nat /\
  Orchestration.delays (fst run) = [2000] /\
  snd run = Ok (Some "created").
Proof.
  apply (@makeRequest_returns_first_response string string Examples.client
           (fun k _ => if Nat.eqb k 2 then Orchestration.Response "created"
                       else Orchestration.Failure Examples.unavailable)
           Orchestration.POST "/locations" (Some "location")
           (fun _ => Examples.unavailable) 3%nat 1%nat "created");
    [lia | | reflexivity].
  intros k Hk. assert (k = 1%nat) as -> by lia. reflexivity.
Defined.

(** C8, counterexample.  A panel that answers every attempt with HTTP 400:
    the request is sent three times, with the two delays in between, before
    the error surfaces. *)
Lemma http_400_is_retried :
  let run := Orchestration.makeRequest (T := unit) Examples.client
               (fun _ _ => Orchestration.Failure Examples.bad_request)
               Orchestration.POST "/nodes" (Some "node")
               Orchestration.default_retries in
  Orchestration.requests (fst run) = [1; 2; 3]%nat /\
  Orchestration.delays (fst run) = [2000; 4000] /\
  snd run = Throw (HttpException
                     "Pterodactyl API request failed: Request failed with status code 400"
                     400).
Proof. repeat split. Qed.

(** ** Orchestration client: the constructor *)

Section OrchestrationProperties.
Context {R : Vault.Runtime}.

(** C10.  When both settings are present and decrypting the configured API key
    fails, for whatever cause, the constructor does not throw: the service it
    returns holds the configured value itself as its API key, the client's
    only log line is a warning (after what [decrypt] logged of its failure),
    and every request [makeRequest] sends from then on carries that value as
    bearer token. *)
Theorem constructor_falls_back_to_configured_key
    (configService_get : string -> option string)
    (encryptionService : Vault.EncryptionService)
    (baseUrl configured : string) (log : list LogEntry) (cause : exn) :
  configService_get "PTERODACTYL_URL" = Some baseUrl ->
  baseUrl <> "" ->
  configService_get "PTERODACTYL_API_KEY" = Some configured ->
  configured <> "" ->
  Vault.decrypt encryptionService configured = (log, Throw cause) ->
  let this := Orchestration.mkPterodactylService baseUrl configured encryptionService in
  Orchestration.new_PterodactylService configService_get encryptionService =
    ((log ++ [mkLog "PterodactylService" LogWarn
                "Using plain text API key - consider encrypting it" None])%list,
     Ok this) /\
  forall (D T : Type) http method endpoint (data : option D) retries line,
    line ∈ Orchestration.request_lines
             (fst (Orchestration.makeRequest (T := T) this http method endpoint data retries)) ->
    Orchestration.line_headers line =
      [("Authorization", "Bearer " ++ configured);
       ("Content-Type", "application/json");
       ("Accept", "application/json")].
Proof.
  intros Hurl Hurl_set Hkey Hkey_set Hdecrypt this.
  split.
  2: { intros D T http method endpoint data retries line Hline.
       apply attempts_request_lines in Hline. subst line. reflexivity. }
  unfold Orchestration.new_PterodactylService.
  rewrite Hurl, Hkey.
  destruct (String.eqb_spec baseUrl "") as [? | _]; [contradiction |].
  destruct (String.eqb_spec configured "") as [? | _]; [contradiction |].
  cbn. rewrite Hdecrypt. reflexivity.
Qed.

(** When the configured value decrypts, the plaintext is the API key. *)
Lemma constructor_uses_decrypted_key
    (configService_get : string -> option string)
    (encryptionService : Vault.EncryptionService)
    (baseUrl configured apiKey : string) (log : list LogEntry) :
  configService_get "PTERODACTYL_URL" = Some baseUrl ->
  baseUrl <> "" ->
  configService_get "PTERODACTYL_API_KEY" = Some configured ->
  configured <> "" ->
  Vault.decrypt encryptionService configured = (log, Ok apiKey) ->
  Orchestration.new_PterodactylService configService_get encryptionService =
    (log, Ok (Orchestration.mkPterodactylService baseUrl apiKey encryptionService)).
Proof.
  intros Hurl Hurl_set Hkey Hkey_set Hdecrypt.
  unfold Orchestration.new_PterodactylService.
  rewrite Hurl, Hkey.
  destruct (String.eqb_spec baseUrl "") as [? | _]; [contradiction |].
  destruct (String.eqb_spec configured "") as [? | _]; [contradiction |].
  cbn. rewrite Hdecrypt. reflexivity.
Qed.

End OrchestrationProperties.

Lemma constructor_falls_back_witness :
  Orchestration.new_PterodactylService (R := Model.runtime)
    Examples.configService_get Examples.vault =
    ([mkLog "EncryptionService" LogError "Decryption failed:"
        (Some (Error "Invalid encrypted data length"));
      mkLog "PterodactylService" LogWarn
        "Using plain text API key - consider encrypting it" None],
     Ok Examples.client) /\
  forall (D T : Type) http method endpoint (data : option D) retries line,
    line ∈ Orchestration.request_lines
             (fst (Orchestration.makeRequest (T := T) Examples.client http method
                     endpoint data retries)) ->
    Orchestration.line_headers line =
      [("Authorization", "Bearer ptla_plain_text_key");
       ("Content-Type", "application/json");
       ("Accept", "application/json")].
Proof.
  apply (@constructor_falls_back_to_configured_key Model.runtime
           Examples.configService_get Examples.vault
           "https://panel.example.com" "ptla_plain_text_key"
           [mkLog "EncryptionService" LogError "Decryption failed:"
              (Some (Error "Invalid encrypted data length"))]
           (Error "Decryption failed"));
    first [reflexivity | discriminate].
Defined.

(** ** The node table *)

Section TableProperties.

(** In a list whose images under a partial map are all different, an image
    has one source. *)
Lemma NoDup_omap_inj {A B : Type} (f : A -> option B) (l : list A) (x y : A) (t : B) :
  NoDup (omap f l) -> x ∈ l -> y ∈ l -> f x = Some t -> f y = Some t -> x = y.
Proof.
  induction l as [| a l IH]; intros Hnodup Hx Hy Hfx Hfy.
  - inversion Hx.
  - assert (Hin : forall z, z ∈ l -> f z = Some t -> t ∈ omap f l).
    { intros z Hz Hfz. apply list_elem_of_omap. eauto. }
    cbn in Hnodup.
    apply elem_of_cons in Hx as [-> | Hx]; apply elem_of_cons in Hy as [-> | Hy].
    + reflexivity.
    + rewrite Hfx in Hnodup. apply NoDup_cons in Hnodup as [Hfresh _].
      exfalso. eauto.
    + rewrite Hfy in Hnodup. apply NoDup_cons in Hnodup as [Hfresh _].
      exfalso. eauto.
    + apply IH; try assumption.
      destruct (f a); [apply NoDup_cons in Hnodup as [_ ?] |]; assumption.
Qed.

(** What [findUnique] by token returns is a row of the table that holds the
    token. *)
Lemma findUnique_token_found (token id : string) (node : Node) (db : Db) :
  node_findUnique_enrollmentToken token db = (db, Ok (Some (id, node))) ->
  nodes db !! id = Some node /\ enrollmentToken node = Some token.
Proof.
  unfold node_findUnique_enrollmentToken. intros [= Hfind].
  destruct (list_find _ _) as [[i row] |] eqn:Hrow; [| discriminate].
  cbn in Hfind. injection Hfind as ->.
  apply list_find_Some in Hrow as (Hlookup & Htoken & _).
  split; [| exact Htoken].
  apply elem_of_map_to_list. eapply list_elem_of_lookup_2. exact Hlookup.
Qed.

(** When no row holds the token, [findUnique] returns [null]. *)
Lemma findUnique_token_absent (token : string) (db : Db) :
  (forall id node, nodes db !! id = Some node -> enrollmentToken node <> Some token) ->
  node_findUnique_enrollmentToken token db = (db, Ok None).
Proof.
  intros Habsent. unfold node_findUnique_enrollmentToken.
  replace (list_find _ _) with (@None (nat * (string * Node))); [reflexivity |].
  symmetry. apply list_find_None. apply Forall_forall.
  intros [id node] Hin. apply elem_of_map_to_list in Hin.
  exact (Habsent id node Hin).
Qed.

(** With unique tokens, [findUnique] returns the one row that holds the
    token. *)
Lemma findUnique_token_unique (token id : string) (node : Node) (db : Db) :
  unique_tokens db ->
  nodes db !! id = Some node ->
  enrollmentToken node = Some token ->
  node_findUnique_enrollmentToken token db = (db, Ok (Some (id, node))).
Proof.
  intros Hunique Hlookup Htoken. unfold node_findUnique_enrollmentToken.
  apply elem_of_map_to_list in Hlookup.
  destruct (list_find_elem_of (has_enrollmentToken token) _ (id, node) Hlookup Htoken)
    as [[i row] Hfind].
  rewrite Hfind. cbn. do 3 f_equal.
  apply list_find_Some in Hfind as (Hrow & Hheld & _).
  apply list_elem_of_lookup_2 in Hrow.
  exact (NoDup_omap_inj _ _ _ _ token Hunique Hrow Hlookup Hheld Htoken).
Qed.

End TableProperties.

(** ** Enrollment gateway *)

Section EnrollmentProperties.

(** A lookup that succeeds leaves the database as it is and found a row that
    holds the token and has not expired. *)
Lemma enroll_lookup_success (now : Z) (token : string) (db db' : Db)
    (found : Nodes.Found) :
  Nodes.enroll_lookup now token db = (db', Ok found) ->
  db' = db /\
  nodes db !! Nodes.found_id found = Some (Nodes.found_node found) /\
  enrollmentToken (Nodes.found_node found) = Some token /\
  Nodes.expired (Nodes.found_node found) now = false.
Proof.
  unfold Nodes.enroll_lookup.
  destruct (node_findUnique_enrollmentToken token db) as [db0 [[[id node] |] | e]] eqn:Hfind;
    try discriminate.
  assert (db0 = db) as -> by (unfold node_findUnique_enrollmentToken in Hfind; congruence).
  destruct (Nodes.expired node now) eqn:Hexpired; [discriminate |].
  intros [= <- <-]. cbn.
  apply findUnique_token_found in Hfind as [Hrow Htoken]. auto.
Qed.

(** Any failure of the lookup is the one [NotFoundException], and the
    database is left as it is. *)
Lemma enroll_lookup_failure (now : Z) (token : string) (db db' : Db) (e : exn) :
  Nodes.enroll_lookup now token db = (db', Throw e) ->
  db' = db /\ e = NotFoundException "Invalid or expired enrollment token".
Proof.
  unfold Nodes.enroll_lookup, node_findUnique_enrollmentToken.
  destruct (snd <$> list_find _ _) as [[id node] |].
  - destruct (Nodes.expired node now); [| discriminate]. intros [= <- <-]. auto.
  - intros [= <- <-]. auto.
Qed.

(** What the part of [enrollNode] after the lookup has done when it returns:
    the three calls before the update succeeded, and the row that has the
    found id now (whatever it holds by then) was overwritten. *)
Lemma enroll_after_lookup_success (pterodactylService : Nodes.PterodactylApi)
    (nodeData : NodeData.t) (found : Nodes.Found) (db db' : Db)
    (r : Nodes.EnrollResult) :
  Nodes.enroll_after_lookup pterodactylService nodeData found db = (db', Ok r) ->
  exists current pterodactylId locationId sealed,
    nodes db !! Nodes.found_id found = Some current /\
    db' = mkDb (<[Nodes.found_id found :=
                    Nodes.enrolled nodeData pterodactylId locationId sealed current]>
                  (nodes db))
               (tenants db) (nodeMetrics db) /\
    Nodes.nodeId r = Nodes.found_id found.
Proof.
  unfold Nodes.enroll_after_lookup, bind, lift, ret, throw, node_update.
  destruct (Nodes.found_tenant found) as [tenant |]; [| discriminate].
  destruct (Nodes.createLocation _ _) as [location |]; [| discriminate].
  destruct (Nodes.createNode _ _) as [pterodactylNode |]; [| discriminate].
  destruct (Nodes.encryptApiKey _ _) as [sealed |]; [| discriminate].
  destruct (nodes db !! Nodes.found_id found) as [current |] eqn:Hcurrent;
    [| discriminate].
  destruct (Nodes.createAllocation _ _ _); [| discriminate].
  destruct (Nodes.getNodeConfiguration _ _) as [daemonConfig |]; [| discriminate].
  intros [= <- <-]. eauto 10.
Qed.

(** A successful [enrollNode] found a row holding the token, not expired,
    and left it [installing] with the token and its expiry cleared. *)
Lemma enrollNode_success (pterodactylService : Nodes.PterodactylApi) (now : Z)
    (token : string) (nodeData : NodeData.t) (db db' : Db) (r : Nodes.EnrollResult) :
  Nodes.enrollNode pterodactylService now token nodeData db = (db', Ok r) ->
  exists node pterodactylId locationId sealed,
    nodes db !! Nodes.nodeId r = Some node /\
    enrollmentToken node = Some token /\
    Nodes.expired node now = false /\
    db' = mkDb (<[Nodes.nodeId r :=
                    Nodes.enrolled nodeData pterodactylId locationId sealed node]>
                  (nodes db))
               (tenants db) (nodeMetrics db).
Proof.
  unfold Nodes.enrollNode, bind.
  destruct (Nodes.enroll_lookup now token db) as [db0 [found | e]] eqn:Hlookup;
    [| discriminate].
  apply enroll_lookup_success in Hlookup as (-> & Hrow & Htoken & Hfresh).
  intros Hrest.
  apply enroll_after_lookup_success in Hrest
    as (current & pterodactylId & locationId & sealed & Hcurrent & -> & ->).
  rewrite Hrow in Hcurrent. injection Hcurrent as <-.
  eauto 10.
Qed.

(** C2, as amended.  For a node whose [enrollmentExpiresAt] is in the past,
    [enrollNode] with its token throws
    [NotFoundException('Invalid or expired enrollment token')] and leaves the
    database, the node's row and status included, as it was.  It is the very
    exception thrown when no node holds the token. *)
Theorem enrollNode_expired (pterodactylService : Nodes.PterodactylApi) (now : Z)
    (token id : string) (node : Node) (expiresAt : Z) (nodeData : NodeData.t)
    (db : Db) :
  unique_tokens db ->
  nodes db !! id = Some node ->
  enrollmentToken node = Some token ->
  enrollmentExpiresAt node = Some expiresAt ->
  expiresAt < now ->
  Nodes.enrollNode pterodactylService now token nodeData db =
    (db, Throw (NotFoundException "Invalid or expired enrollment token")) /\
  forall unknown,
    (forall id' node', nodes db !! id' = Some node' ->
                       enrollmentToken node' <> Some unknown) ->
    Nodes.enrollNode pterodactylService now unknown nodeData db =
      (db, Throw (NotFoundException "Invalid or expired enrollment token")).
Proof.
  intros Hunique Hrow Htoken Hexpiry Hpast. split.
  - unfold Nodes.enrollNode, bind, Nodes.enroll_lookup.
    rewrite (findUnique_token_unique token id node db Hunique Hrow Htoken).
    unfold Nodes.expired. rewrite Hexpiry.
    apply Z.ltb_lt in Hpast. rewrite Hpast. reflexivity.
  - intros unknown Habsent.
    unfold Nodes.enrollNode, bind, Nodes.enroll_lookup.
    rewrite (findUnique_token_absent unknown db Habsent). reflexivity.
Qed.

(** C1, as amended.  Of the calls of [enrollNode] that run one after the
    other, at most one succeeds for a token: a successful call clears the
    token in the row it updates (by id), and the next call with the same
    token finds no row and throws
    [NotFoundException('Invalid or expired enrollment token')], the
    exception of an unknown token. *)
Theorem enrollNode_consumes_token
    (first later : Nodes.PterodactylApi) (now now' : Z) (token : string)
    (nodeData nodeData' : NodeData.t) (db db' : Db) (r : Nodes.EnrollResult) :
  unique_tokens db ->
  Nodes.enrollNode first now token nodeData db = (db', Ok r) ->
  (exists node',
     nodes db' !! Nodes.nodeId r = Some node' /\
     enrollmentToken node' = None /\
     enrollmentExpiresAt node' = None) /\
  Nodes.enrollNode later now' token nodeData' db' =
    (db', Throw (NotFoundException "Invalid or expired enrollment token")).
Proof.
  intros Hunique Hfirst.
  apply enrollNode_success in Hfirst
    as (node & pterodactylId & locationId & sealed & Hrow & Htoken & _ & ->).
  split; [eexists; split; [cbn; apply lookup_insert_eq | split; reflexivity] |].
  unfold Nodes.enrollNode, bind, Nodes.enroll_lookup.
  rewrite findUnique_token_absent; [reflexivity |].
  intros id' node' Hrow'. cbn in Hrow'.
  destruct (decide (Nodes.nodeId r = id')) as [<- | Hother].
  - rewrite lookup_insert_eq in Hrow'. injection Hrow' as <-. discriminate.
  - rewrite lookup_insert_ne in Hrow' by exact Hother.
    intros Htoken'. apply Hother.
    apply elem_of_map_to_list in Hrow, Hrow'.
    assert (Heq : (Nodes.nodeId r, node) = (id', node'))
      by exact (NoDup_omap_inj _ _ _ _ token Hunique Hrow Hrow' Htoken Htoken').
    congruence.
Qed.

End EnrollmentProperties.

Lemma enrollNode_expired_witness :
  Nodes.enrollNode Examples.panel (Examples.day + 1) "tok-abc123" Examples.nodeData
    Examples.db_pending =
    (Examples.db_pending, Throw (NotFoundException "Invalid or expired enrollment token")) /\
  forall unknown,
    (forall id' node', nodes Examples.db_pending !! id' = Some node' ->
                       enrollmentToken node' <> Some unknown) ->
    Nodes.enrollNode Examples.panel (Examples.day + 1) unknown Examples.nodeData
      Examples.db_pending =
      (Examples.db_pending, Throw (NotFoundException "Invalid or expired enrollment token")).
Proof.
  apply (enrollNode_expired Examples.panel (Examples.day + 1) "tok-abc123" "n1"
           (Examples.created "tok-abc123" Examples.day) Examples.day
           Examples.nodeData Examples.db_pending);
    compute_done.
Defined.

(** C2, counterexample.  A node whose token expired a millisecond ago: the
    call with its token and a call with a token no node holds end in the same
    exception. *)
Lemma expired_is_reported_as_not_found :
  snd (Nodes.enrollNode Examples.panel (Examples.day + 1) "tok-abc123"
         Examples.nodeData Examples.db_pending) =
    Throw (NotFoundException "Invalid or expired enrollment token") /\
  snd (Nodes.enrollNode Examples.panel (Examples.day + 1) "never-issued"
         Examples.nodeData Examples.db_pending) =
    Throw (NotFoundException "Invalid or expired enrollment token").
Proof. split; vm_compute; reflexivity. Qed.

Lemma enrollNode_consumes_token_witness :
  let first := Nodes.enrollNode Examples.panel 1000 "tok-abc123" Examples.nodeData
                 Examples.db_pending in
  unique_tokens Examples.db_pending /\
  first = (fst first, Ok (Nodes.mkEnrollResult "n1" "wings configuration")) /\
  (exists node',
     nodes (fst first) !! "n1" = Some node' /\
     enrollmentToken node' = None /\
     enrollmentExpiresAt node' = None) /\
  Nodes.enrollNode Examples.panel 2000 "tok-abc123" Examples.nodeData (fst first) =
    (fst first, Throw (NotFoundException "Invalid or expired enrollment token")).
Proof.
  intros first.
  assert (Hunique : unique_tokens Examples.db_pending) by compute_done.
  assert (Hfirst : first = (fst first, Ok (Nodes.mkEnrollResult "n1" "wings configuration")))
    by compute_done.
  split; [exact Hunique |]. split; [exact Hfirst |].
  exact (enrollNode_consumes_token Examples.panel Examples.panel 1000 2000
           "tok-abc123" Examples.nodeData Examples.nodeData Examples.db_pending
           (fst first) (Nodes.mkEnrollResult "n1" "wings configuration")
           Hunique Hfirst).
Defined.

(** C1, counterexample.  The token is consumed by a first call; a second call
    with the same token gets the exception that a token never issued gets. *)
Lemma consumed_is_reported_as_not_found :
  let first := Nodes.enrollNode Examples.panel 1000 "tok-abc123" Examples.nodeData
                 Examples.db_pending in
  snd first = Ok (Nodes.mkEnrollResult "n1" "wings configuration") /\
  snd (Nodes.enrollNode Examples.panel 2000 "tok-abc123" Examples.nodeData (fst first)) =
    Throw (NotFoundException "Invalid or expired enrollment token") /\
  snd (Nodes.enrollNode Examples.panel 2000 "never-issued" Examples.nodeData (fst first)) =
    Throw (NotFoundException "Invalid or expired enrollment token").
Proof. repeat split; vm_compute; reflexivity. Qed.

Section RaceProperties.

(** With unique tokens, the lookup finds the row that holds the token, when
    that row has not expired. *)
Lemma enroll_lookup_finds (now : Z) (token id : string) (node : Node) (db : Db) :
  unique_tokens db ->
  nodes db !! id = Some node ->
  enrollmentToken node = Some token ->
  Nodes.expired node now = false ->
  Nodes.enroll_lookup now token db =
    (db, Ok (Nodes.mkFound id node (tenants db !! tenantId node))).
Proof.
  intros Hunique Hrow Htoken Hfresh. unfold Nodes.enroll_lookup.
  rewrite (findUnique_token_unique token id node db Hunique Hrow Htoken).
  rewrite Hfresh. reflexivity.
Qed.

(** Once the lookup is done, nothing in [enrollNode] reads the token again:
    if the panel accepts the requests and a row still has the found id, the
    call overwrites that row and returns. *)
Lemma enroll_after_lookup_returns (pterodactylService : Nodes.PterodactylApi)
    (nodeData : NodeData.t) (found : Nodes.Found) (tenant : Tenant)
    (current : Node) (db : Db) :
  Nodes.accepts pterodactylService ->
  Nodes.found_tenant found = Some tenant ->
  nodes db !! Nodes.found_id found = Some current ->
  exists pterodactylId locationId sealed daemonConfig,
    Nodes.enroll_after_lookup pterodactylService nodeData found db =
      (mkDb (<[Nodes.found_id found :=
                 Nodes.enrolled nodeData pterodactylId locationId sealed current]>
               (nodes db))
            (tenants db) (nodeMetrics db),
       Ok (Nodes.mkEnrollResult (Nodes.found_id found) daemonConfig)).
Proof.
  intros (Hlocation & Hnode & Hallocation & Hconfig & Hseal) Htenant Hcurrent.
  unfold Nodes.enroll_after_lookup, bind, lift, ret, node_update.
  rewrite Htenant.
  match goal with |- context [Nodes.createLocation ?s ?dto] =>
    specialize (Hlocation dto);
    destruct (Nodes.createLocation s dto) as [location |]; [| discriminate] end.
  match goal with |- context [Nodes.createNode ?s ?dto] =>
    specialize (Hnode dto);
    destruct (Nodes.createNode s dto) as [pterodactylNode |]; [| discriminate] end.
  match goal with |- context [Nodes.encryptApiKey ?s ?apiKey] =>
    specialize (Hseal apiKey);
    destruct (Nodes.encryptApiKey s apiKey) as [sealed |]; [| discriminate] end.
  rewrite Hcurrent.
  match goal with |- context [Nodes.createAllocation ?s ?i ?dto] =>
    specialize (Hallocation i dto);
    destruct (Nodes.createAllocation s i dto); [| discriminate] end.
  match goal with |- context [Nodes.getNodeConfiguration ?s ?i] =>
    specialize (Hconfig i);
    destruct (Nodes.getNodeConfiguration s i) as [daemonConfig |]; [| discriminate] end.
  eauto 10.
Qed.

(** The update of [enrollNode] is keyed by the node's id and is not
    conditional on the token: when two calls for one token have both done
    their lookup before either goes on, and the panel accepts the requests of
    both, both calls return, for the same node. *)
Theorem enrollNode_race_both_succeed
    (serviceA serviceB : Nodes.PterodactylApi) (nowA nowB : Z) (token id : string)
    (node : Node) (tenant : Tenant) (nodeDataA nodeDataB : NodeData.t) (db : Db) :
  unique_tokens db ->
  nodes db !! id = Some node ->
  enrollmentToken node = Some token ->
  Nodes.expired node nowA = false ->
  Nodes.expired node nowB = false ->
  tenants db !! tenantId node = Some tenant ->
  Nodes.accepts serviceA ->
  Nodes.accepts serviceB ->
  exists db' configA configB,
    Nodes.enrollNode_raced serviceA serviceB nowA nowB token nodeDataA nodeDataB db =
      (db', (Ok (Nodes.mkEnrollResult id configA), Ok (Nodes.mkEnrollResult id configB))).
Proof.
  intros Hunique Hrow Htoken HfreshA HfreshB Htenant HacceptsA HacceptsB.
  unfold Nodes.enrollNode_raced.
  rewrite (enroll_lookup_finds nowA token id node db) by assumption.
  rewrite (enroll_lookup_finds nowB token id node db) by assumption.
  destruct (enroll_after_lookup_returns serviceA nodeDataA
              (Nodes.mkFound id node (tenants db !! tenantId node)) tenant node db
              HacceptsA Htenant Hrow)
    as (pidA & lidA & sealedA & configA & HrunA).
  rewrite HrunA.
  destruct (enroll_after_lookup_returns serviceB nodeDataB
              (Nodes.mkFound id node (tenants db !! tenantId node)) tenant
              (Nodes.enrolled nodeDataA pidA lidA sealedA node)
              (mkDb (<[id := Nodes.enrolled nodeDataA pidA lidA sealedA node]> (nodes db))
                    (tenants db) (nodeMetrics db))
              HacceptsB Htenant (lookup_insert_eq _ _ _))
    as (pidB & lidB & sealedB & configB & HrunB).
  cbn in HrunB |- *. rewrite HrunB. eauto.
Qed.

End RaceProperties.

Lemma enrollNode_race_witness :
  exists db' configA configB,
    Nodes.enrollNode_raced Examples.panel Examples.panel 1000 1001 "tok-abc123"
      Examples.nodeData Examples.nodeData Examples.db_pending =
      (db', (Ok (Nodes.mkEnrollResult "n1" configA),
             Ok (Nodes.mkEnrollResult "n1" configB))).
Proof.
  apply (enrollNode_race_both_succeed Examples.panel Examples.panel 1000 1001
           "tok-abc123" "n1" (Examples.created "tok-abc123" Examples.day)
           (mkTenant "Acme") Examples.nodeData Examples.nodeData Examples.db_pending);
    try compute_done; repeat split; intros; reflexivity.
Defined.

(** ** Heartbeat processor *)

Section HeartbeatProperties.

(** [handleHeartbeat] on a node that exists: the row is overwritten; then
    the metric row, if the body has a [system] part, is made and stored, and
    [{ status: 'ok' }] is returned, or the making of the row throws. *)
Lemma handleHeartbeat_runs (now : Z) (nodeId : string) (metrics : Agent.HeartbeatBody)
    (db : Db) (node : Node) :
  nodes db !! nodeId = Some node ->
  Agent.handleHeartbeat now nodeId metrics db =
    (mkDb (<[nodeId := Agent.heartbeat_data now metrics node]> (nodes db))
          (tenants db)
          (nodeMetrics db ++ Agent.rows_added now nodeId metrics)%list,
     _ ← Agent.metric_rows now nodeId metrics; mret (Agent.mkReply "ok")).
Proof.
  intros Hrow.
  unfold Agent.handleHeartbeat, bind, node_update, nodeMetric_create, ret, lift,
    Agent.rows_added, Agent.metric_rows.
  rewrite Hrow.
  destruct (Agent.system metrics) as [s |]; cbn.
  - destruct (Agent.metric_row now nodeId s) as [row | e]; cbn; [reflexivity |].
    rewrite app_nil_r. reflexivity.
  - rewrite app_nil_r. reflexivity.
Qed.

(** [updateHeartbeat] on a node that exists: the row is overwritten; then
    the metric row is made and stored, or the making of it throws. *)
Lemma updateHeartbeat_runs (now : Z) (nodeId : string) (metrics : Nodes.Metrics)
    (db : Db) (node : Node) :
  nodes db !! nodeId = Some node ->
  Nodes.updateHeartbeat now nodeId metrics db =
    (mkDb (<[nodeId := Nodes.heartbeat_data now node]> (nodes db))
          (tenants db)
          (nodeMetrics db ++
           match Nodes.metric_row now nodeId metrics with
           | Ok row => [row]
           | Throw _ => []
           end)%list,
     _ ← Nodes.metric_row now nodeId metrics; mret tt).
Proof.
  intros Hrow.
  unfold Nodes.updateHeartbeat, bind, node_update, nodeMetric_create, ret, lift.
  rewrite Hrow.
  destruct (Nodes.metric_row now nodeId metrics) as [row | e]; cbn; [reflexivity |].
  rewrite app_nil_r. reflexivity.
Qed.

(** C3, as amended.  For every node, whatever its status ([error]
    included) and whatever the body, [handleHeartbeat] sets [lastHeartbeat]
    to the current time and [status] to [online].  It then returns
    [{ status: 'ok' }], unless the making of the metric row throws (a
    counter [BigInt] does not take), which the caller then gets, the node
    being [online] already. *)
Theorem handleHeartbeat_sets_online (now : Z) (nodeId : string)
    (metrics : Agent.HeartbeatBody) (db : Db) (node : Node) :
  nodes db !! nodeId = Some node ->
  exists db' node' outcome,
    Agent.handleHeartbeat now nodeId metrics db = (db', outcome) /\
    nodes db' !! nodeId = Some node' /\
    status node' = NodeStatus.online /\
    lastHeartbeat node' = Some now /\
    (forall rows, Agent.metric_rows now nodeId metrics = Ok rows ->
                  outcome = Ok (Agent.mkReply "ok")) /\
    (forall e, Agent.metric_rows now nodeId metrics = Throw e -> outcome = Throw e).
Proof.
  intros Hrow. eexists _, _, _.
  split; [exact (handleHeartbeat_runs now nodeId metrics db node Hrow) |].
  split; [cbn; apply lookup_insert_eq |].
  split; [reflexivity |]. split; [reflexivity |].
  split; [intros rows -> | intros e ->]; reflexivity.
Qed.

(** C4, as amended.  A heartbeat does not look at the node's status: applied
    to a [pending] node, [handleHeartbeat] and [updateHeartbeat] each leave it
    [online] in one step, its enrollment token still in place.  [installing]
    is where a successful [enrollNode] leaves the node whose token it
    consumed. *)
Theorem pending_node_steps (now : Z) (nodeId : string) (node : Node) (db : Db)
    (body : Agent.HeartbeatBody) (metrics : Nodes.Metrics) :
  nodes db !! nodeId = Some node ->
  status node = NodeStatus.pending ->
  (status <$> nodes (fst (Agent.handleHeartbeat now nodeId body db)) !! nodeId
     = Some NodeStatus.online) /\
  (enrollmentToken <$> nodes (fst (Agent.handleHeartbeat now nodeId body db)) !! nodeId
     = Some (enrollmentToken node)) /\
  (status <$> nodes (fst (Nodes.updateHeartbeat now nodeId metrics db)) !! nodeId
     = Some NodeStatus.online) /\
  (enrollmentToken <$> nodes (fst (Nodes.updateHeartbeat now nodeId metrics db)) !! nodeId
     = Some (enrollmentToken node)) /\
  (forall pterodactylService token nodeData db' r,
      Nodes.enrollNode pterodactylService now token nodeData db = (db', Ok r) ->
      Nodes.nodeId r = nodeId ->
      status <$> nodes db' !! nodeId = Some NodeStatus.installing).
Proof.
  intros Hrow Hpending. repeat split.
  - rewrite (handleHeartbeat_runs now nodeId body db node Hrow). cbn.
    rewrite lookup_insert_eq. reflexivity.
  - rewrite (handleHeartbeat_runs now nodeId body db node Hrow). cbn.
    rewrite lookup_insert_eq. reflexivity.
  - rewrite (updateHeartbeat_runs now nodeId metrics db node Hrow). cbn.
    rewrite lookup_insert_eq. reflexivity.
  - rewrite (updateHeartbeat_runs now nodeId metrics db node Hrow). cbn.
    rewrite lookup_insert_eq. reflexivity.
  - intros pterodactylService token nodeData db' r Henroll <-.
    apply enrollNode_success in Henroll as (found & ? & ? & ? & _ & _ & _ & ->).
    cbn. rewrite lookup_insert_eq. reflexivity.
Qed.

(** The row a replay writes is the row a single heartbeat at the later time
    would have written. *)
Lemma heartbeat_data_replay (now now' : Z) (metrics : Agent.HeartbeatBody) (node : Node) :
  Agent.heartbeat_data now' metrics (Agent.heartbeat_data now metrics node) =
  Agent.heartbeat_data now' metrics node.
Proof.
  unfold Agent.heartbeat_data. cbn.
  destruct (Agent.hb_agentVersion metrics), (Agent.hb_wingsVersion metrics); reflexivity.
Qed.

(** C5, as amended.  Replaying a heartbeat body is idempotent on the node's
    row apart from [lastHeartbeat], which takes the time of the replay: the
    row is what one heartbeat at that time would have written.  The metric
    table is not keyed by the payload.  A body with no [system] part adds no
    row.  A body with a [system] part whose two counters [BigInt(x || 0)]
    converts adds one row at each call, so the replay stores a second row
    with the same figures.  When [BigInt] throws on a counter, each call
    throws that error, the node's row written, and no row is added. *)
Theorem handleHeartbeat_replay (now now' : Z) (nodeId : string)
    (metrics : Agent.HeartbeatBody) (db : Db) (node : Node) :
  nodes db !! nodeId = Some node ->
  let once := Agent.handleHeartbeat now nodeId metrics db in
  let twice := Agent.handleHeartbeat now' nodeId metrics (fst once) in
  let returned rows :=
    snd once = Ok (Agent.mkReply "ok") /\
    snd twice = Ok (Agent.mkReply "ok") /\
    nodeMetrics (fst twice) = (nodeMetrics db ++ rows)%list in
  let thrown e :=
    snd once = Throw e /\ snd twice = Throw e /\
    nodeMetrics (fst twice) = nodeMetrics db in
  nodes (fst twice) = <[nodeId := Agent.heartbeat_data now' metrics node]> (nodes db) /\
  tenants (fst twice) = tenants db /\
  match Agent.system metrics with
  | None => returned []
  | Some s =>
      match BigInt (or_zero (Agent.s_networkRx s)) with
      | Throw e => thrown e
      | Ok rx =>
          match BigInt (or_zero (Agent.s_networkTx s)) with
          | Throw e => thrown e
          | Ok tx =>
              returned
                [mkNodeMetric nodeId (Agent.s_cpuUsage s) (Agent.s_memoryUsage s)
                   (Agent.s_diskUsage s) rx tx now;
                 mkNodeMetric nodeId (Agent.s_cpuUsage s) (Agent.s_memoryUsage s)
                   (Agent.s_diskUsage s) rx tx now']
          end
      end
  end.
Proof.
  intros Hrow once twice. subst once twice. cbv zeta.
  rewrite (handleHeartbeat_runs now nodeId metrics db node Hrow). cbn [fst snd].
  erewrite handleHeartbeat_runs by (cbn; apply lookup_insert_eq).
  cbn [fst snd nodes tenants nodeMetrics].
  rewrite insert_insert_eq, heartbeat_data_replay.
  split; [reflexivity |]. split; [reflexivity |].
  unfold Agent.rows_added, Agent.metric_rows, Agent.metric_row.
  destruct (Agent.system metrics) as [s |]; cbn.
  - destruct (BigInt (or_zero (Agent.s_networkRx s))) as [rx | e]; cbn.
    + destruct (BigInt (or_zero (Agent.s_networkTx s))) as [tx | e]; cbn.
      * rewrite <- app_assoc. auto.
      * rewrite !app_nil_r. auto.
    + rewrite !app_nil_r. auto.
  - rewrite !app_nil_r. auto.
Qed.

End HeartbeatProperties.

Lemma handleHeartbeat_sets_online_witness :
  exists db' node' outcome,
    Agent.handleHeartbeat 5000 "n1" Examples.heartbeat_body
      (Examples.fleet (Examples.in_status NodeStatus.installing)) = (db', outcome) /\
    nodes db' !! "n1" = Some node' /\
    status node' = NodeStatus.online /\
    lastHeartbeat node' = Some 5000 /\
    (forall rows, Agent.metric_rows 5000 "n1" Examples.heartbeat_body = Ok rows ->
                  outcome = Ok (Agent.mkReply "ok")) /\
    (forall e, Agent.metric_rows 5000 "n1" Examples.heartbeat_body = Throw e ->
               outcome = Throw e).
Proof.
  apply (handleHeartbeat_sets_online 5000 "n1" Examples.heartbeat_body
           (Examples.fleet (Examples.in_status NodeStatus.installing))
           (Examples.in_status NodeStatus.installing)).
  compute_done.
Defined.

(** C3, counterexample.  A node in [error] is [online] after one heartbeat. *)
Lemma heartbeat_moves_error_to_online :
  let db := Examples.fleet (Examples.in_status NodeStatus.error) in
  status <$> nodes db !! "n1" = Some NodeStatus.error /\
  status <$> nodes (fst (Agent.handleHeartbeat 5000 "n1" Examples.heartbeat_body db)) !! "n1"
    = Some NodeStatus.online.
Proof. split; compute_done. Qed.

Lemma pending_node_steps_witness :
  (status <$> nodes (fst (Agent.handleHeartbeat 5000 "n1" Examples.heartbeat_body
                            Examples.db_pending)) !! "n1"
     = Some NodeStatus.online) /\
  (enrollmentToken <$> nodes (fst (Agent.handleHeartbeat 5000 "n1" Examples.heartbeat_body
                                     Examples.db_pending)) !! "n1"
     = Some (Some "tok-abc123")) /\
  (status <$> nodes (fst (Nodes.updateHeartbeat 5000 "n1"
                            (Nodes.mkMetrics 1250 4075 6000 (Integer 1024) (Integer 2048))
                            Examples.db_pending)) !! "n1"
     = Some NodeStatus.online) /\
  (enrollmentToken <$> nodes (fst (Nodes.updateHeartbeat 5000 "n1"
                                     (Nodes.mkMetrics 1250 4075 6000 (Integer 1024)
                                        (Integer 2048))
                                     Examples.db_pending)) !! "n1"
     = Some (Some "tok-abc123")) /\
  (forall pterodactylService token nodeData db' r,
      Nodes.enrollNode pterodactylService 5000 token nodeData Examples.db_pending
        = (db', Ok r) ->
      Nodes.nodeId r = "n1" ->
      status <$> nodes db' !! "n1" = Some NodeStatus.installing).
Proof.
  apply (pending_node_steps 5000 "n1" (Examples.created "tok-abc123" Examples.day)
           Examples.db_pending Examples.heartbeat_body
           (Nodes.mkMetrics 1250 4075 6000 (Integer 1024) (Integer 2048)));
    compute_done.
Defined.

(** C4, counterexample.  A node that is [pending], its token not consumed, is
    [online] after one heartbeat, without having been [installing]. *)
Lemma pending_goes_online_directly :
  status <$> nodes Examples.db_pending !! "n1" = Some NodeStatus.pending /\
  status <$> nodes (fst (Agent.handleHeartbeat 5000 "n1" Examples.heartbeat_body
                           Examples.db_pending)) !! "n1"
    = Some NodeStatus.online /\
  enrollmentToken <$> nodes (fst (Agent.handleHeartbeat 5000 "n1" Examples.heartbeat_body
                                    Examples.db_pending)) !! "n1"
    = Some (Some "tok-abc123").
Proof. repeat split; compute_done. Qed.

Lemma handleHeartbeat_replay_witness :
  let db := Examples.fleet (Examples.in_status NodeStatus.online) in
  let once := Agent.handleHeartbeat 5000 "n1" Examples.heartbeat_body db in
  let twice := Agent.handleHeartbeat 5200 "n1" Examples.heartbeat_body (fst once) in
  nodes (fst twice) =
    <["n1" := Agent.heartbeat_data 5200 Examples.heartbeat_body
                (Examples.in_status NodeStatus.online)]> (nodes db) /\
  tenants (fst twice) = tenants db /\
  snd once = Ok (Agent.mkReply "ok") /\
  snd twice = Ok (Agent.mkReply "ok") /\
  nodeMetrics (fst twice) =
    (nodeMetrics db ++ [mkNodeMetric "n1" 1250 4075 6000 1024 2048 5000;
                        mkNodeMetric "n1" 1250 4075 6000 1024 2048 5200])%list.
Proof.
  exact (handleHeartbeat_replay 5000 5200 "n1" Examples.heartbeat_body
           (Examples.fleet (Examples.in_status NodeStatus.online))
           (Examples.in_status NodeStatus.online) eq_refl).
Defined.

(** C5, counterexample.  The same heartbeat body delivered twice, the second
    time 200 ms later: the metric table holds one row after the first
    delivery and two after the second, equal in every figure the body
    carries. *)
Lemma replay_stores_a_second_row :
  let db := Examples.fleet (Examples.in_status NodeStatus.online) in
  let once := fst (Agent.handleHeartbeat 5000 "n1" Examples.heartbeat_body db) in
  let twice := fst (Agent.handleHeartbeat 5200 "n1" Examples.heartbeat_body once) in
  nodeMetrics once = [mkNodeMetric "n1" 1250 4075 6000 1024 2048 5000] /\
  nodeMetrics twice = [mkNodeMetric "n1" 1250 4075 6000 1024 2048 5000;
                       mkNodeMetric "n1" 1250 4075 6000 1024 2048 5200] /\
  twice <> once.
Proof.
  repeat split; try compute_done.
  intros Heq. apply (f_equal (fun db => length (nodeMetrics db))) in Heq.
  vm_compute in Heq. discriminate.
Qed.

(** A heartbeat whose [networkRx] is 1024.5: the node is set [online], then
    [BigInt] throws, no metric row is stored and the caller gets the
    [RangeError]; a replay does the same. *)
Example heartbeat_with_a_fractional_counter :
  let db := Examples.fleet (Examples.in_status NodeStatus.installing) in
  let once := Agent.handleHeartbeat 5000 "n1" Examples.fractional_body db in
  let twice := Agent.handleHeartbeat 5200 "n1" Examples.fractional_body (fst once) in
  snd once =
    Throw (RangeError
      "The number 1024.5 cannot be converted to a BigInt because it is not an integer") /\
  snd twice = snd once /\
  status <$> nodes (fst once) !! "n1" = Some NodeStatus.online /\
  nodeMetrics (fst twice) = [].
Proof. repeat split; compute_done. Qed.

(** ** Agent credentials *)

Section CredentialProperties.
Context {J : Jwt.JwtService} {L : Jwt.JwtLaws J}.
Variable configService_get : string -> option string.


(** C9, as amended.  [generateAgentToken(nodeId)] signs the two claims
    [nodeId] and [type = 'agent'], and no other, with an expiry of 30 days
    (2 592 000 s after [iat]); until then [authenticateAgent] resolves the
    token to the node with that id, if the table has it.  ([enrollNode] itself
    returns the node id and the daemon configuration, [Nodes.EnrollResult],
    and calls neither.) *)
Theorem agent_token_resolves_to_its_node (secret : string) (now now' : Z)
    (nodeId : string) (node : Node) (db : Db) :
  configService_get "AGENT_TOKEN_SECRET" = Some secret ->
  secret <> "" ->
  nodes db !! nodeId = Some node ->
  now <= now' ->
  now' / 1000 < now / 1000 + 2592000 ->
  exists token,
    Agent.generateAgentToken configService_get now nodeId = Ok token /\
    Jwt.verify token (Some secret) now' =
      Ok (Jwt.mkPayload [("nodeId", nodeId); ("type", "agent")]
            (now / 1000) (now / 1000 + 2592000)) /\
    Agent.authenticateAgent configService_get now' token db =
      (db, Ok (Agent.mkAuthenticated nodeId node (tenants db !! tenantId node))).
Proof.
  intros Hsecret Hset Hrow Hlater Hfresh.
  destruct (Jwt.sign_verify (Agent.agentTokenPayload nodeId) secret
              Agent.agentTokenExpiresIn now Hset) as (token & Hsign & Hverify).
  specialize (Hverify now' Hlater Hfresh). cbn in Hverify.
  exists token. repeat split.
  - unfold Agent.generateAgentToken. rewrite Hsecret. exact Hsign.
  - exact Hverify.
  - unfold Agent.authenticateAgent, Agent.authenticateAgent_body, bind, lift,
      node_findUnique_id.
    rewrite Hsecret, Hverify. cbn. rewrite Hrow. reflexivity.
Qed.




End CredentialProperties.

Lemma agent_token_resolves_witness :
  exists token,
    Agent.generateAgentToken (J := Model.jwt) Examples.configService_get 5000 "n1" = Ok token /\
    Model.jwt_verify token (Some "agent-secret") 86400000 =
      Ok (Jwt.mkPayload [("nodeId", "n1"); ("type", "agent")] 5 2592005) /\
    Agent.authenticateAgent (J := Model.jwt) Examples.configService_get 86400000 token
      (Examples.fleet (Examples.in_status NodeStatus.installing)) =
      (Examples.fleet (Examples.in_status NodeStatus.installing),
       Ok (Agent.mkAuthenticated "n1" (Examples.in_status NodeStatus.installing)
             (Some (mkTenant "Acme")))).
Proof.
  apply (@agent_token_resolves_to_its_node Model.jwt model_jwt_laws
           Examples.configService_get "agent-secret" 5000 86400000 "n1"
           (Examples.in_status NodeStatus.installing)
           (Examples.fleet (Examples.in_status NodeStatus.installing)));
    first [compute_done | discriminate].
Defined.


(** C9, counterexample.  A successful enrollment of node [n1] returns the
    node id and the daemon configuration, and no credential; the claims
    [generateAgentToken] signs for [n1] hold its id and the type of the token,
    and no tenant id. *)
Lemma agent_token_carries_no_tenant :
  snd (Nodes.enrollNode Examples.panel 1000 "tok-abc123" Examples.nodeData
         Examples.db_pending) =
    Ok (Nodes.mkEnrollResult "n1" "wings configuration") /\
  Agent.agentTokenPayload "n1" = [("nodeId", "n1"); ("type", "agent")] /\
  Jwt.claim "nodeId" (Agent.agentTokenPayload "n1") = Some "n1" /\
  Jwt.claim "tenantId" (Agent.agentTokenPayload "n1") = None.
Proof. repeat split; compute_done. Qed.

(** * Further properties of the services *)

(** ** Secret vault: keys and blobs *)

Lemma model_hex_byte (b : byte) :
  Model.hex_decode (Model.hex_encode [b]) = [b].
Proof. destruct b; reflexivity. Qed.

Lemma model_hex_laws : Vault.HexLaws Model.runtime.
Proof.
  split; [| reflexivity].
  intros data. cbn. induction data as [| b rest IH]; [reflexivity |].
  pose proof (model_hex_byte b) as Hbyte.
  cbn in Hbyte |- *.
  destruct (Model.hex_value (Model.hex_digit (Byte.to_N b / 16))) as [h |];
    [| discriminate].
  destruct (Model.hex_value (Model.hex_digit (Byte.to_N b mod 16))) as [l |];
    [| discriminate].
  destruct (Byte.of_N (16 * h + l)) as [b' |]; [| discriminate].
  injection Hbyte as ->. rewrite IH. reflexivity.
Qed.

Section KeyProperties.
Context {R : Vault.Runtime}.

(** A key made by [generateKey()] is a valid [ENCRYPTION_KEY]: the
    constructor accepts its hex string, and the service holds the very bytes
    that were drawn. *)
Theorem generated_key_is_accepted {H : Vault.HexLaws R} (random : list byte) :
  length random = Vault.crypto_secretbox_KEYBYTES ->
  (0 < Vault.crypto_secretbox_KEYBYTES)%nat ->
  Vault.new_EncryptionService (Some (Vault.generateKey random)) =
    Ok (Vault.mkEncryptionService random).
Proof.
  intros Hlen Hpositive.
  unfold Vault.new_EncryptionService, Vault.generateKey.
  destruct (String.eqb_spec (Vault.hex_encode random) "") as [Hempty | _].
  - exfalso. pose proof (Vault.hex_roundtrip random) as Hback.
    rewrite Hempty, Vault.hex_decode_empty in Hback.
    subst random. cbn in Hlen. lia.
  - rewrite Vault.hex_roundtrip, Hlen, Nat.eqb_refl. reflexivity.
Qed.

(** With a service that was constructed and a nonce of the right size,
    [encrypt] does not throw and logs nothing. *)
Lemma encrypt_returns {L : Vault.RuntimeLaws R}
    (this : Vault.EncryptionService) (nonce : list byte) (plaintext : string) :
  length (Vault.key this) = Vault.crypto_secretbox_KEYBYTES ->
  length nonce = Vault.crypto_secretbox_NONCEBYTES ->
  exists blob, Vault.encrypt this nonce plaintext = ([], Ok blob).
Proof.
  intros Hkey Hnonce.
  destruct (Vault.secretbox_roundtrip (Vault.utf8_encode plaintext) nonce
              (Vault.key this) Hnonce Hkey) as (box & Hbox & _).
  unfold Vault.encrypt, Vault.encrypt_body. cbn zeta. rewrite Hbox. cbn. eauto.
Qed.

End KeyProperties.

Lemma generated_key_witness :
  Vault.new_EncryptionService (R := Model.runtime)
    (Some (Vault.generateKey (R := Model.runtime) (Model.hex_decode Examples.key_hex))) =
    Ok Examples.vault.
Proof.
  apply (@generated_key_is_accepted Model.runtime model_hex_laws
           (Model.hex_decode Examples.key_hex)); [reflexivity | cbn; lia].
Defined.

Lemma decrypt_returns_only_opened_witness :
  let R := Model.runtime in
  let blob := Vault.base64_encode
                (Examples.nonce ++ take 16 (Vault.key Examples.vault)
                 ++ Vault.utf8_encode "daemon-token")%list in
  snd (Vault.decrypt Examples.vault blob) = Ok "daemon-token" /\
  let data := Vault.base64_decode blob in
  (Vault.crypto_secretbox_NONCEBYTES + Vault.crypto_secretbox_MACBYTES <= length data)%nat /\
  exists message,
    Vault.crypto_secretbox_open_easy
      (drop Vault.crypto_secretbox_NONCEBYTES data)
      (take Vault.crypto_secretbox_NONCEBYTES data)
      (Vault.key Examples.vault) = Ok (Some message) /\
    "daemon-token" = Vault.utf8_decode message.
Proof.
  intros R blob.
  assert (Hok : snd (Vault.decrypt Examples.vault blob) = Ok "daemon-token")
    by (vm_compute; reflexivity).
  split; [exact Hok |].
  exact (@decrypt_returns_only_opened Model.runtime Examples.vault blob
           "daemon-token" Hok).
Defined.

(** ** Orchestration client: bounds of the retry loop, connection test,
       sealed API key *)

Section RetryBounds.
Context {R : Vault.Runtime} {D T : Type}.
Variable this : Orchestration.PterodactylService.
Variable http : nat -> Orchestration.AxiosRequestConfig D -> Orchestration.AxiosOutcome T.
Variable method : Orchestration.Method.
Variable endpoint : string.
Variable data : option D.

(** The delay slept after the failed attempt [k]. *)
Abbreviation backoff := (fun k : nat => 2 ^ Z.of_nat k * 1000).

(** Whatever the panel answers, the loop entered at [attempt] sends the
    attempts [attempt, attempt + 1, ...] in order, at most as many as are
    left and at least one if any is left, and sleeps the backoff delay after
    each of them but the last it sends. *)
Lemma attempts_shape (retries : nat) :
  forall remaining attempt,
    (attempt + remaining = S retries)%nat ->
    exists k,
      (k <= remaining)%nat /\
      (1 <= remaining -> 1 <= k)%nat /\
      Orchestration.requests
        (fst (Orchestration.attempts this http method endpoint data retries remaining attempt))
        = seq attempt k /\
      Orchestration.delays
        (fst (Orchestration.attempts this http method endpoint data retries remaining attempt))
        = backoff <$> seq attempt (k - 1).
Proof.
  induction remaining as [| remaining IH]; intros attempt Hsum.
  - exists 0%nat. repeat split; try lia; reflexivity.
  - cbn [Orchestration.attempts]. cbv zeta.
    destruct (http attempt _) as [response | error].
    + exists 1%nat. repeat split; try lia; reflexivity.
    + destruct (Nat.eqb_spec attempt retries) as [-> | Hmore].
      * exists 1%nat. repeat split; try lia; reflexivity.
      * destruct (IH (S attempt)) as (k & Hk & Hone & Hrequests & Hdelays); [lia |].
        destruct (Orchestration.attempts this http method endpoint data retries
                    remaining (S attempt)) as [events outcome].
        cbn [fst] in Hrequests, Hdelays |- *.
        exists (S k). split; [lia |]. split; [lia |].
        assert (1 <= k)%nat as Hpos by (apply Hone; lia).
        split.
        -- cbn. unfold Orchestration.requests in Hrequests. rewrite Hrequests.
           reflexivity.
        -- replace (S k - 1)%nat with (S (k - 1)) by lia.
           cbn. unfold Orchestration.delays in Hdelays. rewrite Hdelays.
           reflexivity.
Qed.

(** The delays after the attempts [1 .. n] add up to [2^(n+1) - 2] seconds. *)
Lemma backoff_total (n : nat) :
  foldr Z.add 0 (backoff <$> seq 1 n) = (2 ^ Z.of_nat (S n) - 2) * 1000.
Proof.
  induction n as [| n IH]; [reflexivity |].
  rewrite seq_S, fmap_app, foldr_app. cbn [fmap list_fmap foldr].
  assert (Hshift : forall l z, foldr Z.add z l = foldr Z.add 0 l + z).
  { induction l as [| x l IHl]; intros z; cbn; [lia | rewrite IHl; lia]. }
  rewrite Hshift, IH.
  replace (1 + n)%nat with (S n) by lia.
  replace (Z.of_nat (S (S n))) with (Z.of_nat (S n) + 1) by lia.
  rewrite Z.pow_add_r by lia. lia.
Qed.

(** Whatever the panel answers to each attempt, [makeRequest] with
    [retries >= 1] sends the attempts [1 .. k] for some [1 <= k <= retries],
    never more than [retries] requests, sleeps [2 ^ i] seconds after each
    attempt [i < k] and no other delay, so that it sleeps less than
    [2 ^ retries] seconds in all (6 s at most with the default of 3). *)
Theorem makeRequest_is_bounded (retries : nat) :
  (1 <= retries)%nat ->
  let run := Orchestration.makeRequest this http method endpoint data retries in
  exists k,
    (1 <= k <= retries)%nat /\
    Orchestration.requests (fst run) = seq 1 k /\
    Orchestration.delays (fst run) = ((fun i => 2 ^ Z.of_nat i * 1000) <$> seq 1 (k - 1)) /\
    foldr Z.add 0 (Orchestration.delays (fst run)) <= (2 ^ Z.of_nat retries - 2) * 1000.
Proof.
  intros Hpositive run. subst run. unfold Orchestration.makeRequest.
  destruct (attempts_shape retries retries 1%nat) as (k & Hk & Hone & Hrequests & Hdelays);
    [lia |].
  exists k. split; [lia |]. split; [exact Hrequests |]. split; [exact Hdelays |].
  rewrite Hdelays, backoff_total.
  replace (S (k - 1)) with k by lia.
  assert (2 ^ Z.of_nat k <= 2 ^ Z.of_nat retries) by (apply Z.pow_le_mono_r; lia).
  lia.
Qed.

End RetryBounds.

Lemma makeRequest_is_bounded_witness :
  let run := Orchestration.makeRequest Examples.client
               (fun k _ => if Nat.eqb k 2 then Orchestration.Response "created"
                           else Orchestration.Failure Examples.timed_out)
               Orchestration.POST "/locations" (Some "location")
               Orchestration.default_retries in
  exists k,
    (1 <= k <= 3)%nat /\
    Orchestration.requests (fst run) = seq 1 k /\
    Orchestration.delays (fst run) = ((fun i => 2 ^ Z.of_nat i * 1000) <$> seq 1 (k - 1)) /\
    foldr Z.add 0 (Orchestration.delays (fst run)) <= 6000.
Proof.
  apply (@makeRequest_is_bounded string string Examples.client
           (fun k _ => if Nat.eqb k 2 then Orchestration.Response "created"
                       else Orchestration.Failure Examples.timed_out)
           Orchestration.POST "/locations" (Some "location") 3%nat).
  lia.
Defined.

Section ConnectionProperties.
Context {R : Vault.Runtime} {T : Type}.
Variable this : Orchestration.PterodactylService.
Variable http : nat -> Orchestration.AxiosRequestConfig unit -> Orchestration.AxiosOutcome T.

(** [testConnection()] never throws.  It returns [true], with nothing
    logged, exactly when one of the three attempts of
    [GET /users?per_page=1] gets a response; otherwise it has sent the three
    requests with the two delays in between, logs the error and returns
    [false]. *)
Theorem testConnection_reports_reachability :
  let config := Orchestration.request_config this Orchestration.GET
                  "/users?per_page=1" (None : option unit) in
  exists events log reachable,
    Orchestration.testConnection this http = (events, (log, Ok reachable)) /\
    (reachable = true <->
       exists k response, (1 <= k <= 3)%nat /\ http k config = Orchestration.Response response) /\
    (reachable = true -> log = []) /\
    (reachable = false ->
       Orchestration.requests events = [1; 2; 3]%nat /\
       Orchestration.delays events = [2000; 4000] /\
       exists error,
         log = [mkLog "PterodactylService" LogError
                  "Pterodactyl connection test failed:" (Some error)]).
Proof.
  intros config.
  unfold Orchestration.testConnection, Orchestration.makeRequest,
    Orchestration.default_retries.
  cbn [Orchestration.attempts]. cbv zeta. fold config.
  destruct (http 1%nat config) as [r1 | e1] eqn:H1.
  { eexists _, _, _. split; [reflexivity |].
    split; [| split; [reflexivity | discriminate]].
    split; [| reflexivity]. intros _. exists 1%nat, r1. split; [lia | exact H1]. }
  cbn [Nat.eqb].
  destruct (http 2%nat config) as [r2 | e2] eqn:H2.
  { eexists _, _, _. split; [reflexivity |].
    split; [| split; [reflexivity | discriminate]].
    split; [| reflexivity]. intros _. exists 2%nat, r2. split; [lia | exact H2]. }
  cbn [Nat.eqb].
  destruct (http 3%nat config) as [r3 | e3] eqn:H3.
  { eexists _, _, _. split; [reflexivity |].
    split; [| split; [reflexivity | discriminate]].
    split; [| reflexivity]. intros _. exists 3%nat, r3. split; [lia | exact H3]. }
  cbn [Nat.eqb].
  eexists _, _, _. split; [reflexivity |].
  split; [| split; [discriminate |]].
  - split; [discriminate |].
    intros (k & response & Hk & Hresponse).
    assert (k = 1 \/ k = 2 \/ k = 3)%nat as [-> | [-> | ->]] by lia; congruence.
  - intros _. repeat split. eauto.
Qed.

(** A configured API key that was sealed by the vault is recovered at
    construction: when the setting holds a blob [encrypt] made of [apiKey]
    with the key the vault was constructed with, the constructor logs
    nothing and the client holds, not the blob, but what [decrypt] reads
    from it: [apiKey] as [toString('utf8')] reads its UTF-8 bytes, which is
    [apiKey] itself when it is a well-formed string. *)
Theorem constructor_recovers_sealed_key {L : Vault.RuntimeLaws R} {U : Vault.Utf8Laws R}
    (configService_get : string -> option string) (keyHex : option string)
    (encryptionService : Vault.EncryptionService) (nonce : list byte)
    (baseUrl apiKey blob : string) :
  Vault.new_EncryptionService keyHex = Ok encryptionService ->
  length nonce = Vault.crypto_secretbox_NONCEBYTES ->
  snd (Vault.encrypt encryptionService nonce apiKey) = Ok blob ->
  blob <> "" ->
  configService_get "PTERODACTYL_URL" = Some baseUrl ->
  baseUrl <> "" ->
  configService_get "PTERODACTYL_API_KEY" = Some blob ->
  Orchestration.new_PterodactylService configService_get encryptionService =
    ([], Ok (Orchestration.mkPterodactylService baseUrl
               (Vault.utf8_decode (Vault.utf8_encode apiKey)) encryptionService)) /\
  (Vault.isWellFormed apiKey = true ->
   Orchestration.new_PterodactylService configService_get encryptionService =
     ([], Ok (Orchestration.mkPterodactylService baseUrl apiKey encryptionService))).
Proof.
  intros Hnew Hnonce Hseal Hblob Hurl Hurl_set Hkey.
  pose proof (new_EncryptionService_key_length _ _ Hnew) as Hlen.
  pose proof (encrypt_then_decrypt encryptionService nonce apiKey blob Hlen Hnonce Hseal)
    as Hopen.
  assert (Hrun : Orchestration.new_PterodactylService configService_get encryptionService =
                 ([], Ok (Orchestration.mkPterodactylService baseUrl
                            (Vault.utf8_decode (Vault.utf8_encode apiKey))
                            encryptionService))).
  { unfold Orchestration.new_PterodactylService. rewrite Hurl, Hkey.
    destruct (String.eqb_spec baseUrl "") as [? | _]; [contradiction |].
    destruct (String.eqb_spec blob "") as [? | _]; [contradiction |].
    cbn. rewrite Hopen. reflexivity. }
  split; [exact Hrun |].
  intros Hwell. rewrite Hrun, (Vault.utf8_roundtrip apiKey Hwell). reflexivity.
Qed.

(** The constructor throws for one reason only, a missing or empty
    [PTERODACTYL_URL] or [PTERODACTYL_API_KEY], and then before the vault is
    asked anything: nothing is logged.  No failure of [decrypt] stops it. *)
Theorem constructor_fails_only_on_missing_settings
    (configService_get : string -> option string)
    (encryptionService : Vault.EncryptionService) (log : list LogEntry) (e : exn) :
  Orchestration.new_PterodactylService configService_get encryptionService =
    (log, Throw e) ->
  e = Error "PTERODACTYL_URL and PTERODACTYL_API_KEY must be configured" /\
  log = [] /\
  (or_else (configService_get "PTERODACTYL_URL") "" = "" \/
   or_else (configService_get "PTERODACTYL_API_KEY") "" = "").
Proof.
  unfold Orchestration.new_PterodactylService.
  destruct (configService_get "PTERODACTYL_URL") as [baseUrl |];
    [| intros [= <- <-]; cbn; auto].
  destruct (configService_get "PTERODACTYL_API_KEY") as [configured |];
    [| intros [= <- <-]; cbn; auto].
  cbn [or_else].
  destruct (String.eqb baseUrl ""); cbn; [intros [= <- <-]; auto |].
  destruct (String.eqb configured ""); cbn; [intros [= <- <-]; auto |].
  destruct (Vault.decrypt encryptionService configured) as [dlog [apiKey | cause]];
    discriminate.
Qed.

End ConnectionProperties.

Lemma constructor_recovers_sealed_key_witness :
  let R := Model.runtime in
  let blob := Vault.base64_encode
                (Examples.nonce ++ take 16 (Vault.key Examples.vault)
                 ++ Vault.utf8_encode "ptla_secret")%list in
  let configService_get := fun name : string =>
    if String.eqb name "PTERODACTYL_URL" then Some "https://panel.example.com"
    else if String.eqb name "PTERODACTYL_API_KEY" then Some blob
    else None in
  Orchestration.new_PterodactylService configService_get Examples.vault =
    ([], Ok (Orchestration.mkPterodactylService "https://panel.example.com"
               (Vault.utf8_decode (Vault.utf8_encode "ptla_secret")) Examples.vault)) /\
  (Vault.isWellFormed "ptla_secret" = true ->
   Orchestration.new_PterodactylService configService_get Examples.vault =
     ([], Ok (Orchestration.mkPterodactylService "https://panel.example.com"
                "ptla_secret" Examples.vault))).
Proof.
  intros R blob configService_get.
  apply (@constructor_recovers_sealed_key Model.runtime model_runtime_laws model_utf8_laws
           configService_get (Some Examples.key_hex) Examples.vault Examples.nonce
           "https://panel.example.com" "ptla_secret" blob);
    first [vm_compute; reflexivity | vm_compute; discriminate].
Defined.

Lemma constructor_fails_witness :
  Error "PTERODACTYL_URL and PTERODACTYL_API_KEY must be configured" =
    Error "PTERODACTYL_URL and PTERODACTYL_API_KEY must be configured" /\
  @nil LogEntry = [] /\
  (or_else (@None string) "" = "" \/ or_else (@None string) "" = "").
Proof.
  apply (@constructor_fails_only_on_missing_settings Model.runtime
           (fun _ => None) Examples.vault []
           (Error "PTERODACTYL_URL and PTERODACTYL_API_KEY must be configured")).
  reflexivity.
Defined.

(** ** Enrollment gateway: effects, invariants, issue and consume *)

Section TokenInvariant.

(** A list without repetition whose images under a partial map have one
    source each has images without repetition. *)
Lemma NoDup_omap_of_inj {A B : Type} (f : A -> option B) (l : list A) :
  NoDup l ->
  (forall x y t, x ∈ l -> y ∈ l -> f x = Some t -> f y = Some t -> x = y) ->
  NoDup (omap f l).
Proof.
  induction l as [| a l IH]; intros Hnodup Hinj; [constructor |].
  apply NoDup_cons in Hnodup as [Hfresh Hnodup].
  assert (Hrest : NoDup (omap f l)).
  { apply IH; [exact Hnodup |]. intros x y t Hx Hy. apply Hinj; set_solver. }
  cbn. destruct (f a) as [t |] eqn:Hfa; [| exact Hrest].
  apply NoDup_cons. split; [| exact Hrest].
  intros Hin. apply list_elem_of_omap in Hin as (x & Hx & Hfx).
  assert (a = x) by (apply (Hinj a x t); set_solver).
  subst x. contradiction.
Qed.

(** Unique tokens, said of the rows: two rows that hold the same token are
    one row. *)
Lemma unique_tokens_rows (db : Db) :
  unique_tokens db <->
  forall id1 id2 node1 node2 token,
    nodes db !! id1 = Some node1 ->
    nodes db !! id2 = Some node2 ->
    enrollmentToken node1 = Some token ->
    enrollmentToken node2 = Some token ->
    id1 = id2.
Proof.
  unfold unique_tokens, tokens. split.
  - intros Hnodup id1 id2 node1 node2 token H1 H2 Ht1 Ht2.
    apply elem_of_map_to_list in H1, H2.
    assert (Heq : (id1, node1) = (id2, node2))
      by exact (NoDup_omap_inj _ _ _ _ token Hnodup H1 H2 Ht1 Ht2).
    congruence.
  - intros Hrows. apply NoDup_omap_of_inj; [apply NoDup_map_to_list |].
    intros [id1 node1] [id2 node2] token H1 H2 Ht1 Ht2.
    apply elem_of_map_to_list in H1, H2.
    assert (id1 = id2) by exact (Hrows _ _ _ _ token H1 H2 Ht1 Ht2).
    subst id2. congruence.
Qed.

(** Overwriting a row with one that holds the same token or none keeps the
    tokens unique. *)
Lemma unique_tokens_update (db : Db) (id : string) (node node' : Node)
    (metrics : list NodeMetric) :
  unique_tokens db ->
  nodes db !! id = Some node ->
  enrollmentToken node' = enrollmentToken node \/ enrollmentToken node' = None ->
  unique_tokens (mkDb (<[id := node']> (nodes db)) (tenants db) metrics).
Proof.
  intros Hunique Hrow Hkept.
  apply unique_tokens_rows. cbn.
  pose proof (proj1 (unique_tokens_rows db) Hunique) as Hrows.
  intros id1 id2 node1 node2 token H1 H2 Ht1 Ht2.
  destruct (decide (id = id1)) as [<- | Hne1];
    destruct (decide (id = id2)) as [<- | Hne2]; [reflexivity | | |].
  - rewrite lookup_insert_eq in H1. rewrite lookup_insert_ne in H2 by exact Hne2.
    injection H1 as <-.
    destruct Hkept as [Hsame | Hnone]; [| congruence].
    apply (Hrows id id2 node node2 token); congruence.
  - rewrite lookup_insert_eq in H2. rewrite lookup_insert_ne in H1 by exact Hne1.
    injection H2 as <-.
    destruct Hkept as [Hsame | Hnone]; [| congruence].
    apply (Hrows id1 id node1 node token); congruence.
  - rewrite lookup_insert_ne in H1 by exact Hne1.
    rewrite lookup_insert_ne in H2 by exact Hne2.
    exact (Hrows id1 id2 node1 node2 token H1 H2 Ht1 Ht2).
Qed.

(** What [node_update] leaves: the database as it was when it throws, the
    one row overwritten when it returns. *)
Lemma node_update_effect (id : string) (data : Node -> Node) (db : Db) :
  (nodes db !! id = None /\
   node_update id data db = (db, Throw PrismaRecordNotFound)) \/
  (exists node,
     nodes db !! id = Some node /\
     node_update id data db =
       (mkDb (<[id := data node]> (nodes db)) (tenants db) (nodeMetrics db),
        Ok (data node))).
Proof.
  unfold node_update. destruct (nodes db !! id) as [node |]; eauto.
Qed.

End TokenInvariant.

Section EnrollmentEffects.

(** Clearing the token of the one row that holds it leaves no row with
    it. *)
Lemma token_absent_after_clearing (db : Db) (id token : string) (node node' : Node) :
  unique_tokens db ->
  nodes db !! id = Some node ->
  enrollmentToken node = Some token ->
  enrollmentToken node' = None ->
  forall id' row,
    <[id := node']> (nodes db) !! id' = Some row ->
    enrollmentToken row <> Some token.
Proof.
  intros Hunique Hrow Htoken Hcleared id' row Hrow' Hheld.
  destruct (decide (id = id')) as [<- | Hother].
  - rewrite lookup_insert_eq in Hrow'. congruence.
  - rewrite lookup_insert_ne in Hrow' by exact Hother.
    apply Hother.
    exact (proj1 (unique_tokens_rows db) Hunique id id' node row token
             Hrow Hrow' Htoken Hheld).
Qed.

(** What the part of [enrollNode] after the lookup leaves, however it ends:
    the database as it was, or the row of the found id overwritten. *)
Lemma enroll_after_lookup_effect (pterodactylService : Nodes.PterodactylApi)
    (nodeData : NodeData.t) (found : Nodes.Found) (db db' : Db)
    (outcome : result Nodes.EnrollResult) :
  Nodes.enroll_after_lookup pterodactylService nodeData found db = (db', outcome) ->
  (db' = db /\ is_ok outcome = false) \/
  (exists current pterodactylId locationId sealed,
     nodes db !! Nodes.found_id found = Some current /\
     db' = mkDb (<[Nodes.found_id found :=
                     Nodes.enrolled nodeData pterodactylId locationId sealed current]>
                   (nodes db))
                (tenants db) (nodeMetrics db)).
Proof.
  unfold Nodes.enroll_after_lookup, bind, lift, ret, throw, node_update.
  destruct (Nodes.found_tenant found) as [tenant |]; [| intros [= <- <-]; auto].
  destruct (Nodes.createLocation _ _) as [location |]; [| intros [= <- <-]; auto].
  destruct (Nodes.createNode _ _) as [pterodactylNode |]; [| intros [= <- <-]; auto].
  destruct (Nodes.encryptApiKey _ _) as [sealed |]; [| intros [= <- <-]; auto].
  destruct (nodes db !! Nodes.found_id found) as [current |] eqn:Hcurrent;
    [| intros [= <- <-]; auto].
  destruct (Nodes.createAllocation _ _ _); [| intros [= <- <-]; eauto 10].
  destruct (Nodes.getNodeConfiguration _ _) as [daemonConfig |];
    intros [= <- <-]; eauto 10.
Qed.

(** [enrollNode], however it ends, leaves the database as it was or has
    rewritten one row only: the row that held the token, unexpired, is now
    [installing] under the same tenant, its token and expiry cleared.  No
    other node, no tenant and no metric row is touched; and when the call
    returns, the row was rewritten. *)
Theorem enrollNode_rewrites_one_row (pterodactylService : Nodes.PterodactylApi)
    (now : Z) (token : string) (nodeData : NodeData.t) (db db' : Db)
    (outcome : result Nodes.EnrollResult) :
  Nodes.enrollNode pterodactylService now token nodeData db = (db', outcome) ->
  tenants db' = tenants db /\
  nodeMetrics db' = nodeMetrics db /\
  ((db' = db /\ is_ok outcome = false) \/
   (exists id node node',
      nodes db !! id = Some node /\
      enrollmentToken node = Some token /\
      Nodes.expired node now = false /\
      nodes db' = <[id := node']> (nodes db) /\
      status node' = NodeStatus.installing /\
      enrollmentToken node' = None /\
      enrollmentExpiresAt node' = None /\
      tenantId node' = tenantId node)).
Proof.
  unfold Nodes.enrollNode, bind.
  destruct (Nodes.enroll_lookup now token db) as [db0 [found | e]] eqn:Hlookup.
  - apply enroll_lookup_success in Hlookup as (-> & Hrow & Htoken & Hfresh).
    intros Hrest.
    apply enroll_after_lookup_effect in Hrest
      as [[-> Hfailed] | (current & pid & lid & sealed & Hcurrent & ->)].
    + auto.
    + rewrite Hrow in Hcurrent. injection Hcurrent as <-.
      cbn. repeat split. right.
      exists (Nodes.found_id found), (Nodes.found_node found),
        (Nodes.enrolled nodeData pid lid sealed (Nodes.found_node found)).
      repeat split; assumption.
  - apply enroll_lookup_failure in Hlookup as [-> ->].
    intros [= <- <-]. auto.
Qed.

(** An enrollment that fails late cannot be tried again.  When the panel
    has created the location and the node but then refuses the allocation
    (or, the allocation made, the configuration), [enrollNode] throws the
    panel's error with the row already rewritten: the node is [installing],
    its token is gone, and any further call with the token gets
    [NotFoundException]. *)
Theorem enrollNode_late_failure_consumes_token
    (pterodactylService : Nodes.PterodactylApi) (now : Z) (token id : string)
    (node : Node) (tenant : Tenant) (nodeData : NodeData.t) (db : Db) (e : exn) :
  unique_tokens db ->
  nodes db !! id = Some node ->
  enrollmentToken node = Some token ->
  Nodes.expired node now = false ->
  tenants db !! tenantId node = Some tenant ->
  (forall dto, is_ok (Nodes.createLocation pterodactylService dto) = true) ->
  (forall dto, is_ok (Nodes.createNode pterodactylService dto) = true) ->
  (forall apiKey, is_ok (Nodes.encryptApiKey pterodactylService apiKey) = true) ->
  ((forall i dto, Nodes.createAllocation pterodactylService i dto = Throw e) \/
   ((forall i dto, is_ok (Nodes.createAllocation pterodactylService i dto) = true) /\
    (forall i, Nodes.getNodeConfiguration pterodactylService i = Throw e))) ->
  exists db' node',
    Nodes.enrollNode pterodactylService now token nodeData db = (db', Throw e) /\
    nodes db' !! id = Some node' /\
    status node' = NodeStatus.installing /\
    enrollmentToken node' = None /\
    forall later now' nodeData',
      Nodes.enrollNode later now' token nodeData' db' =
        (db', Throw (NotFoundException "Invalid or expired enrollment token")).
Proof.
  intros Hunique Hrow Htoken Hfresh Htenant Hlocation Hnode Hseal Hlate.
  unfold Nodes.enrollNode at 1, bind.
  rewrite (enroll_lookup_finds now token id node db Hunique Hrow Htoken Hfresh).
  unfold Nodes.enroll_after_lookup, bind, lift, ret, node_update.
  cbn [Nodes.found_tenant Nodes.found_node Nodes.found_id]. rewrite Htenant.
  match goal with |- context [Nodes.createLocation ?s ?dto] =>
    specialize (Hlocation dto);
    destruct (Nodes.createLocation s dto) as [location |]; [| discriminate] end.
  match goal with |- context [Nodes.createNode ?s ?dto] =>
    specialize (Hnode dto);
    destruct (Nodes.createNode s dto) as [pterodactylNode |]; [| discriminate] end.
  match goal with |- context [Nodes.encryptApiKey ?s ?apiKey] =>
    specialize (Hseal apiKey);
    destruct (Nodes.encryptApiKey s apiKey) as [sealed |]; [| discriminate] end.
  rewrite Hrow.
  set (node' := Nodes.enrolled nodeData (PterodactylNode.id pterodactylNode)
                  (PterodactylLocation.id location) sealed node).
  set (db' := mkDb (<[id := node']> (nodes db)) (tenants db) (nodeMetrics db)).
  assert (Hgone : forall later now' nodeData',
            Nodes.enrollNode later now' token nodeData' db' =
              (db', Throw (NotFoundException "Invalid or expired enrollment token"))).
  { intros later now' nodeData'.
    unfold Nodes.enrollNode, bind, Nodes.enroll_lookup.
    rewrite findUnique_token_absent; [reflexivity |].
    exact (token_absent_after_clearing db id token node node'
             Hunique Hrow Htoken eq_refl). }
  exists db', node'.
  assert (Hstored : nodes db' !! id = Some node') by apply lookup_insert_eq.
  destruct Hlate as [Hallocation | [Hallocation Hconfig]].
  - rewrite Hallocation. auto.
  - match goal with |- context [Nodes.createAllocation ?s ?i ?dto] =>
      specialize (Hallocation i dto);
      destruct (Nodes.createAllocation s i dto); [| discriminate] end.
    rewrite Hconfig. auto.
Qed.

End EnrollmentEffects.

Lemma enrollNode_rewrites_one_row_witness :
  let run := Nodes.enrollNode Examples.panel 1000 "tok-abc123" Examples.nodeData
               Examples.db_pending in
  tenants (fst run) = tenants Examples.db_pending /\
  nodeMetrics (fst run) = nodeMetrics Examples.db_pending /\
  ((fst run = Examples.db_pending /\ is_ok (snd run) = false) \/
   (exists id node node',
      nodes Examples.db_pending !! id = Some node /\
      enrollmentToken node = Some "tok-abc123" /\
      Nodes.expired node 1000 = false /\
      nodes (fst run) = <[id := node']> (nodes Examples.db_pending) /\
      status node' = NodeStatus.installing /\
      enrollmentToken node' = None /\
      enrollmentExpiresAt node' = None /\
      tenantId node' = tenantId node)).
Proof.
  intros run.
  apply (enrollNode_rewrites_one_row Examples.panel 1000 "tok-abc123"
           Examples.nodeData Examples.db_pending (fst run) (snd run)).
  subst run. destruct (Nodes.enrollNode _ _ _ _ _). reflexivity.
Defined.

Lemma enrollNode_late_failure_witness :
  let refusing :=
    Nodes.mkApi
      (fun _ => Ok (PterodactylLocation.mk 7))
      (fun _ => Ok (PterodactylNode.mk 42 "daemon-token"))
      (fun _ _ => Throw (HttpException "Pterodactyl API request failed: conflict" 409))
      (fun _ => Ok "wings configuration")
      (fun apiKey => Ok apiKey) in
  exists db' node',
    Nodes.enrollNode refusing 1000 "tok-abc123" Examples.nodeData Examples.db_pending =
      (db', Throw (HttpException "Pterodactyl API request failed: conflict" 409)) /\
    nodes db' !! "n1" = Some node' /\
    status node' = NodeStatus.installing /\
    enrollmentToken node' = None /\
    forall later now' nodeData',
      Nodes.enrollNode later now' "tok-abc123" nodeData' db' =
        (db', Throw (NotFoundException "Invalid or expired enrollment token")).
Proof.
  intros refusing.
  apply (enrollNode_late_failure_consumes_token refusing 1000 "tok-abc123" "n1"
           (Examples.created "tok-abc123" Examples.day) (mkTenant "Acme")
           Examples.nodeData Examples.db_pending
           (HttpException "Pterodactyl API request failed: conflict" 409));
    try compute_done; try (intros; reflexivity).
  left. intros. reflexivity.
Defined.

Section TokenInvariantProperties.

(** A new row whose id is free and whose token no row holds keeps the tokens
    unique. *)
Lemma unique_tokens_create (db : Db) (id : string) (row : Node) :
  unique_tokens db ->
  nodes db !! id = None ->
  (forall token, enrollmentToken row = Some token -> token ∉ tokens db) ->
  unique_tokens (mkDb (<[id := row]> (nodes db)) (tenants db) (nodeMetrics db)).
Proof.
  intros Hunique Hfree Hnew.
  apply unique_tokens_rows. cbn.
  pose proof (proj1 (unique_tokens_rows db) Hunique) as Hrows.
  assert (Hheld : forall id' node token,
            nodes db !! id' = Some node -> enrollmentToken node = Some token ->
            token ∈ tokens db).
  { intros id' node token Hrow Htoken. unfold tokens.
    apply list_elem_of_omap. exists (id', node).
    split; [apply elem_of_map_to_list; exact Hrow | exact Htoken]. }
  intros id1 id2 node1 node2 token H1 H2 Ht1 Ht2.
  destruct (decide (id = id1)) as [<- | Hne1];
    destruct (decide (id = id2)) as [<- | Hne2]; [reflexivity | | |].
  - rewrite lookup_insert_eq in H1. rewrite lookup_insert_ne in H2 by exact Hne2.
    injection H1 as <-. exfalso. apply (Hnew token Ht1). eauto.
  - rewrite lookup_insert_eq in H2. rewrite lookup_insert_ne in H1 by exact Hne1.
    injection H2 as <-. exfalso. apply (Hnew token Ht2). eauto.
  - rewrite lookup_insert_ne in H1 by exact Hne1.
    rewrite lookup_insert_ne in H2 by exact Hne2.
    exact (Hrows id1 id2 node1 node2 token H1 H2 Ht1 Ht2).
Qed.

(** The services that rewrite rows keep the enrollment tokens unique: none
    of them gives a row a token.  Whatever their arguments and however they
    end, [enrollNode] (which clears the token of the row it rewrites),
    [handleHeartbeat] and [updateHeartbeat] (which copy it) leave a table
    with unique tokens when they start from one. *)
Theorem tokens_stay_unique (db : Db) :
  unique_tokens db ->
  (forall pterodactylService now token nodeData,
      unique_tokens (fst (Nodes.enrollNode pterodactylService now token nodeData db))) /\
  (forall now nodeId metrics,
      unique_tokens (fst (Agent.handleHeartbeat now nodeId metrics db))) /\
  (forall now nodeId metrics,
      unique_tokens (fst (Nodes.updateHeartbeat now nodeId metrics db))).
Proof.
  intros Hunique. repeat split.
  - intros pterodactylService now token nodeData.
    destruct (Nodes.enrollNode pterodactylService now token nodeData db)
      as [db' outcome] eqn:Henroll.
    unfold Nodes.enrollNode, bind in Henroll.
    destruct (Nodes.enroll_lookup now token db) as [db0 [found | e]] eqn:Hlookup.
    + apply enroll_lookup_success in Hlookup as (-> & Hrow & _ & _).
      apply enroll_after_lookup_effect in Henroll
        as [[-> _] | (current & pid & lid & sealed & Hcurrent & ->)];
        [exact Hunique |].
      cbn [fst]. apply (unique_tokens_update db _ current); auto.
    + apply enroll_lookup_failure in Hlookup as [-> _].
      injection Henroll as <- _. exact Hunique.
  - intros now nodeId metrics.
    destruct (nodes db !! nodeId) as [node |] eqn:Hrow.
    + rewrite (handleHeartbeat_runs now nodeId metrics db node Hrow). cbn [fst].
      apply (unique_tokens_update db _ node); auto.
    + unfold Agent.handleHeartbeat, bind, node_update. rewrite Hrow. exact Hunique.
  - intros now nodeId metrics.
    destruct (nodes db !! nodeId) as [node |] eqn:Hrow.
    + rewrite (updateHeartbeat_runs now nodeId metrics db node Hrow). cbn [fst].
      apply (unique_tokens_update db _ node); auto.
    + unfold Nodes.updateHeartbeat, bind, node_update. rewrite Hrow. exact Hunique.
Qed.

(** Issue, then consume.  A token issued by [generateEnrollmentToken] for a
    tenant of the table (the id the database gives being free and the token
    held by no row) is stored on a new [pending] node, and [enrollNode] with
    that token, at any time up to the returned [expiresAt] and with a panel
    that accepts its requests, returns the id of that node and leaves it
    [installing]. *)
Theorem issued_token_enrolls (pterodactylService : Nodes.PterodactylApi)
    (env : option string) (now expiresAt : Z) (token id tenantId tenantAdminId : string)
    (tenant : Tenant) (nodeData : NodeData.t) (db : Db) :
  unique_tokens db ->
  nodes db !! id = None ->
  token ∉ tokens db ->
  tenants db !! tenantId = Some tenant ->
  now <= expiresAt ->
  Nodes.accepts pterodactylService ->
  exists db1 db2 daemonConfig,
    Nodes.generateEnrollmentToken env expiresAt token id tenantId tenantAdminId db =
      (db1, Ok (Nodes.mkEnrollmentToken id token expiresAt
                  (Nodes.generateInstallCommand env token))) /\
    nodes db1 !! id = Some (Nodes.pending_node tenantId token expiresAt) /\
    Nodes.enrollNode pterodactylService now token nodeData db1 =
      (db2, Ok (Nodes.mkEnrollResult id daemonConfig)) /\
    status <$> nodes db2 !! id = Some NodeStatus.installing.
Proof.
  intros Hunique Hfree Hnew Htenant Hwindow Haccepts.
  set (row := Nodes.pending_node tenantId token expiresAt).
  set (db1 := mkDb (<[id := row]> (nodes db)) (tenants db) (nodeMetrics db)).
  assert (Hissue : Nodes.generateEnrollmentToken env expiresAt token id tenantId
                     tenantAdminId db =
                   (db1, Ok (Nodes.mkEnrollmentToken id token expiresAt
                               (Nodes.generateInstallCommand env token)))).
  { unfold Nodes.generateEnrollmentToken, bind, node_create, ret. rewrite Hfree.
    cbn [enrollmentToken Nodes.pending_node].
    rewrite bool_decide_eq_false_2 by exact Hnew. reflexivity. }
  assert (Hunique1 : unique_tokens db1).
  { apply unique_tokens_create; [assumption | assumption |].
    intros token' [= <-]. exact Hnew. }
  assert (Hrow1 : nodes db1 !! id = Some row) by apply lookup_insert_eq.
  assert (Hfresh : Nodes.expired row now = false).
  { unfold Nodes.expired. cbn. apply Z.ltb_ge. exact Hwindow. }
  destruct (enroll_after_lookup_returns pterodactylService nodeData
              (Nodes.mkFound id row (tenants db1 !! Prisma.tenantId row)) tenant row db1
              Haccepts Htenant Hrow1)
    as (pid & lid & sealed & daemonConfig & Hrun).
  exists db1. eexists. exists daemonConfig.
  split; [exact Hissue |]. split; [exact Hrow1 |].
  unfold Nodes.enrollNode, bind.
  rewrite (enroll_lookup_finds now token id row db1 Hunique1 Hrow1 eq_refl Hfresh).
  rewrite Hrun. split; [reflexivity |].
  cbn. rewrite lookup_insert_eq. reflexivity.
Qed.

End TokenInvariantProperties.

Lemma tokens_stay_unique_witness :
  unique_tokens Examples.db_pending /\
  (forall pterodactylService now token nodeData,
      unique_tokens (fst (Nodes.enrollNode pterodactylService now token nodeData
                            Examples.db_pending))) /\
  (forall now nodeId metrics,
      unique_tokens (fst (Agent.handleHeartbeat now nodeId metrics Examples.db_pending))) /\
  (forall now nodeId metrics,
      unique_tokens (fst (Nodes.updateHeartbeat now nodeId metrics Examples.db_pending))).
Proof.
  assert (Hunique : unique_tokens Examples.db_pending) by compute_done.
  split; [exact Hunique |].
  exact (tokens_stay_unique Examples.db_pending Hunique).
Defined.

Lemma issued_token_enrolls_witness :
  let db := Examples.fleet (Examples.in_status NodeStatus.online) in
  exists db1 db2 daemonConfig,
    Nodes.generateEnrollmentToken (Some "https://cp.multihost.test") Examples.day
      "tok-new" "n2" Examples.tenant_id "admin-1" db =
      (db1, Ok (Nodes.mkEnrollmentToken "n2" "tok-new" Examples.day
                  "curl -fsSL https://cp.multihost.test/api/nodes/install | bash -s -- tok-new")) /\
    nodes db1 !! "n2" = Some (Examples.created "tok-new" Examples.day) /\
    Nodes.enrollNode Examples.panel 1000 "tok-new" Examples.nodeData db1 =
      (db2, Ok (Nodes.mkEnrollResult "n2" daemonConfig)) /\
    status <$> nodes db2 !! "n2" = Some NodeStatus.installing.
Proof.
  intros db.
  apply (issued_token_enrolls Examples.panel (Some "https://cp.multihost.test") 1000
           Examples.day "tok-new" "n2" Examples.tenant_id "admin-1" (mkTenant "Acme")
           Examples.nodeData db);
    try compute_done.
  repeat split; intros; reflexivity.
Defined.

(** ** Enrollment: the daemon token at rest *)

Section SealedDaemonToken.
Context {R : Vault.Runtime} {L : Vault.RuntimeLaws R}.

(** What the part of [enrollNode] after the lookup has called when it
    returns: [createNode] answered, [encryptApiKey] sealed the daemon token
    of the answer, and the sealed value and the panel's node id are in the
    row. *)
Lemma enroll_after_lookup_calls (pterodactylService : Nodes.PterodactylApi)
    (nodeData : NodeData.t) (found : Nodes.Found) (db db' : Db)
    (r : Nodes.EnrollResult) :
  Nodes.enroll_after_lookup pterodactylService nodeData found db = (db', Ok r) ->
  exists current dto pterodactylNode locationId sealed,
    nodes db !! Nodes.found_id found = Some current /\
    Nodes.createNode pterodactylService dto = Ok pterodactylNode /\
    Nodes.encryptApiKey pterodactylService (PterodactylNode.daemon_token pterodactylNode)
      = Ok sealed /\
    db' = mkDb (<[Nodes.found_id found :=
                    Nodes.enrolled nodeData (PterodactylNode.id pterodactylNode)
                      locationId sealed current]>
                  (nodes db))
               (tenants db) (nodeMetrics db) /\
    Nodes.nodeId r = Nodes.found_id found.
Proof.
  unfold Nodes.enroll_after_lookup, bind, lift, ret, throw, node_update.
  destruct (Nodes.found_tenant found) as [tenant |]; [| discriminate].
  destruct (Nodes.createLocation _ _) as [location |]; [| discriminate].
  destruct (Nodes.createNode _ _) as [pterodactylNode |] eqn:Hnode; [| discriminate].
  destruct (Nodes.encryptApiKey _ _) as [sealed |] eqn:Hsealed; [| discriminate].
  destruct (nodes db !! Nodes.found_id found) as [current |] eqn:Hcurrent;
    [| discriminate].
  destruct (Nodes.createAllocation _ _ _); [| discriminate].
  destruct (Nodes.getNodeConfiguration _ _) as [daemonConfig |]; [| discriminate].
  intros [= <- <-]. eauto 12.
Qed.

(** The daemon token is kept sealed.  When [encryptApiKey] is the vault's
    [encrypt], a successful [enrollNode] stores in [daemonToken] a blob that
    [decrypt] of the same vault reads back, without logging, to the
    [daemon_token] the panel returned for the node whose id is stored in
    [pterodactylId]: as [toString('utf8')] reads its UTF-8 bytes, which is
    the token itself when it is a well-formed string. *)
Theorem daemon_token_is_stored_sealed {U : Vault.Utf8Laws R} (keyHex : option string)
    (vault : Vault.EncryptionService) (nonce : list byte)
    (panel : Nodes.PterodactylApi) (now : Z) (token : string)
    (nodeData : NodeData.t) (db db' : Db) (r : Nodes.EnrollResult) :
  Vault.new_EncryptionService keyHex = Ok vault ->
  length nonce = Vault.crypto_secretbox_NONCEBYTES ->
  Nodes.enrollNode (Nodes.sealing vault nonce panel) now token nodeData db = (db', Ok r) ->
  exists node' dto pterodactylNode sealed,
    nodes db' !! Nodes.nodeId r = Some node' /\
    Nodes.createNode panel dto = Ok pterodactylNode /\
    pterodactylId node' = Some (PterodactylNode.id pterodactylNode) /\
    daemonToken node' = Some sealed /\
    Vault.decrypt vault sealed =
      ([], Ok (Vault.utf8_decode
                 (Vault.utf8_encode (PterodactylNode.daemon_token pterodactylNode)))) /\
    (Vault.isWellFormed (PterodactylNode.daemon_token pterodactylNode) = true ->
     Vault.decrypt vault sealed = ([], Ok (PterodactylNode.daemon_token pterodactylNode))).
Proof.
  intros Hvault Hnonce.
  unfold Nodes.enrollNode, bind.
  destruct (Nodes.enroll_lookup now token db) as [db0 [found | e]] eqn:Hlookup;
    [| discriminate].
  apply enroll_lookup_success in Hlookup as (-> & _).
  intros Hrest.
  apply enroll_after_lookup_calls in Hrest
    as (current & dto & pterodactylNode & locationId & sealed
        & Hcurrent & Hnode & Hsealed & -> & ->).
  cbn in Hnode, Hsealed.
  assert (Hopen : Vault.decrypt vault sealed =
                  ([], Ok (Vault.utf8_decode
                             (Vault.utf8_encode
                                (PterodactylNode.daemon_token pterodactylNode))))).
  { apply (encrypt_then_decrypt vault nonce _ sealed);
      [exact (new_EncryptionService_key_length keyHex vault Hvault) | exact Hnonce
       | exact Hsealed]. }
  exists (Nodes.enrolled nodeData (PterodactylNode.id pterodactylNode) locationId
            sealed current), dto, pterodactylNode, sealed.
  split; [cbn; apply lookup_insert_eq |].
  split; [exact Hnode |]. split; [reflexivity |]. split; [reflexivity |].
  split; [exact Hopen |].
  intros Hwell. rewrite Hopen, (Vault.utf8_roundtrip _ Hwell). reflexivity.
Qed.

End SealedDaemonToken.

Lemma daemon_token_is_stored_sealed_witness :
  let R := Model.runtime in
  let run := Nodes.enrollNode (Nodes.sealing Examples.vault Examples.nonce Examples.panel)
               1000 "tok-abc123" Examples.nodeData Examples.db_pending in
  snd run = Ok (Nodes.mkEnrollResult "n1" "wings configuration") /\
  exists node' dto pterodactylNode sealed,
    nodes (fst run) !! "n1" = Some node' /\
    Nodes.createNode Examples.panel dto = Ok pterodactylNode /\
    pterodactylId node' = Some (PterodactylNode.id pterodactylNode) /\
    daemonToken node' = Some sealed /\
    Vault.decrypt Examples.vault sealed =
      ([], Ok (Vault.utf8_decode
                 (Vault.utf8_encode (PterodactylNode.daemon_token pterodactylNode)))) /\
    (Vault.isWellFormed (PterodactylNode.daemon_token pterodactylNode) = true ->
     Vault.decrypt Examples.vault sealed =
       ([], Ok (PterodactylNode.daemon_token pterodactylNode))).
Proof.
  intros R run.
  assert (Hrun : run = (fst run, Ok (Nodes.mkEnrollResult "n1" "wings configuration")))
    by (vm_compute; reflexivity).
  split; [rewrite Hrun; reflexivity |].
  exact (@daemon_token_is_stored_sealed Model.runtime model_runtime_laws model_utf8_laws
           (Some Examples.key_hex) Examples.vault Examples.nonce Examples.panel
           1000 "tok-abc123" Examples.nodeData Examples.db_pending (fst run)
           (Nodes.mkEnrollResult "n1" "wings configuration")
           ltac:(vm_compute; reflexivity) eq_refl Hrun).
Defined.

(** ** Heartbeat processor: what a heartbeat writes *)

Section HeartbeatEffects.

(** A heartbeat writes to one node only.  [handleHeartbeat] for an id the
    table does not have throws Prisma's record-not-found error and stores
    nothing, no metric row either.  Otherwise it leaves every tenant and
    every other node as they were; of the node itself it keeps the tenant,
    the inventory columns, the enrollment token with its expiry and what the
    panel gave ([pterodactylId], [locationId], [daemonToken]); and the metric
    rows that were there stay, in their order, followed by at most one new
    row, which carries the node's id and the time of the call (none when
    the making of the row throws). *)
Theorem handleHeartbeat_writes_one_node (now : Z) (nodeId : string)
    (metrics : Agent.HeartbeatBody) (db : Db) :
  let run := Agent.handleHeartbeat now nodeId metrics db in
  (nodes db !! nodeId = None -> run = (db, Throw PrismaRecordNotFound)) /\
  tenants (fst run) = tenants db /\
  (forall id, id <> nodeId -> nodes (fst run) !! id = nodes db !! id) /\
  (forall node, nodes db !! nodeId = Some node ->
     exists node',
       nodes (fst run) !! nodeId = Some node' /\
       tenantId node' = tenantId node /\
       (name node', fqdn node', publicIp node', privateIp node') =
         (name node, fqdn node, publicIp node, privateIp node) /\
       (cpuCores node', memoryMb node', diskGb node') =
         (cpuCores node, memoryMb node, diskGb node) /\
       (enrollmentToken node', enrollmentExpiresAt node') =
         (enrollmentToken node, enrollmentExpiresAt node) /\
       (pterodactylId node', locationId node', daemonToken node') =
         (pterodactylId node, locationId node, daemonToken node)) /\
  exists added,
    nodeMetrics (fst run) = (nodeMetrics db ++ added)%list /\
    (length added <= 1)%nat /\
    Forall (fun row => metric_nodeId row = nodeId /\ timestamp row = now) added.
Proof.
  cbn zeta.
  destruct (nodes db !! nodeId) as [node |] eqn:Hrow.
  - rewrite (handleHeartbeat_runs now nodeId metrics db node Hrow). cbn [fst].
    split; [discriminate |]. split; [reflexivity |].
    split; [intros id Hother; cbn; apply lookup_insert_ne; congruence |].
    split.
    + intros node0 [= <-]. eexists. split; [cbn; apply lookup_insert_eq |].
      cbn. auto.
    + exists (Agent.rows_added now nodeId metrics). split; [reflexivity |].
      unfold Agent.rows_added, Agent.metric_rows, Agent.metric_row.
      destruct (Agent.system metrics) as [s |]; cbn; [| split; [lia | constructor]].
      destruct (BigInt (or_zero (Agent.s_networkRx s))) as [rx | e]; cbn;
        [| split; [lia | constructor]].
      destruct (BigInt (or_zero (Agent.s_networkTx s))) as [tx | e]; cbn;
        [| split; [lia | constructor]].
      split; [lia |]. repeat constructor.
  - assert (Hrun : Agent.handleHeartbeat now nodeId metrics db =
                   (db, Throw PrismaRecordNotFound)).
    { unfold Agent.handleHeartbeat, bind, node_update. rewrite Hrow. reflexivity. }
    rewrite Hrun. cbn [fst].
    split; [reflexivity |]. split; [reflexivity |].
    split; [reflexivity |]. split; [discriminate |].
    exists []. rewrite app_nil_r. split; [reflexivity |]. split; [cbn; lia | constructor].
Qed.

(** [x || 0] changes what [BigInt] makes of [x] only when [x] is
    [undefined], [null] or [NaN]. *)
Lemma BigInt_or_zero (x : Figure) :
  x <> Undefined -> x <> Null -> x <> NotANumber ->
  BigInt (or_zero x) = BigInt x.
Proof.
  intros Hundefined Hnull Hnan. unfold or_zero.
  destruct x as [| | | n | shown | [|] | | converted]; cbn; try congruence.
  destruct (Z.eqb_spec n 0) as [-> | _]; reflexivity.
Qed.

(** [NodesService.updateHeartbeat] and [AgentService.handleHeartbeat].
    [updateHeartbeat] writes the node's row as the heartbeat of an agent that
    reports no versions does, and throws as that one does when the node id is
    unknown.  It converts the two counters with [BigInt(x)], not
    [BigInt(x || 0)]: for counters that are not [undefined], [null] or [NaN]
    the two methods leave the same database and both return or both throw;
    when a counter is one of the three, which [handleHeartbeat] reads as 0,
    [updateHeartbeat] throws with the node's row written and no metric row
    stored. *)
Theorem updateHeartbeat_is_a_versionless_heartbeat (now : Z) (nodeId : string)
    (metrics : Nodes.Metrics) (db : Db) :
  let body :=
    Agent.mkHeartbeat None None
      (Some (Agent.mkSystem (Nodes.m_cpuUsage metrics) (Nodes.m_memoryUsage metrics)
               (Nodes.m_diskUsage metrics) (Nodes.m_networkRx metrics)
               (Nodes.m_networkTx metrics))) in
  let replaced x := x = Undefined \/ x = Null \/ x = NotANumber in
  let update := Nodes.updateHeartbeat now nodeId metrics db in
  let handle := Agent.handleHeartbeat now nodeId body db in
  nodes (fst update) = nodes (fst handle) /\
  tenants (fst update) = tenants (fst handle) /\
  (nodes db !! nodeId = None ->
   update = (db, Throw PrismaRecordNotFound) /\ handle = (db, Throw PrismaRecordNotFound)) /\
  (~ replaced (Nodes.m_networkRx metrics) -> ~ replaced (Nodes.m_networkTx metrics) ->
   fst update = fst handle /\ is_ok (snd update) = is_ok (snd handle)) /\
  (forall node,
     nodes db !! nodeId = Some node ->
     replaced (Nodes.m_networkRx metrics) \/ replaced (Nodes.m_networkTx metrics) ->
     is_ok (snd update) = false /\
     nodeMetrics (fst update) = nodeMetrics db /\
     status <$> nodes (fst update) !! nodeId = Some NodeStatus.online) /\
  (forall x, replaced x -> BigInt (or_zero x) = Ok 0 /\ is_ok (BigInt x) = false).
Proof.
  cbv zeta.
  destruct (nodes db !! nodeId) as [node |] eqn:Hrow.
  - rewrite (updateHeartbeat_runs now nodeId metrics db node Hrow).
    rewrite (handleHeartbeat_runs now nodeId _ db node Hrow).
    cbn [fst snd nodes tenants nodeMetrics].
    split; [reflexivity |]. split; [reflexivity |]. split; [discriminate |].
    split.
    + intros Hrx Htx.
      unfold Agent.rows_added, Agent.metric_rows, Agent.metric_row, Nodes.metric_row.
      cbn [Agent.system Agent.s_networkRx Agent.s_networkTx Agent.s_cpuUsage
             Agent.s_memoryUsage Agent.s_diskUsage].
      rewrite !BigInt_or_zero by tauto.
      destruct (BigInt (Nodes.m_networkRx metrics)) as [rx | e]; cbn; [| auto].
      destruct (BigInt (Nodes.m_networkTx metrics)) as [tx | e]; cbn; auto.
    + split; [| intros x [-> | [-> | ->]]; split; reflexivity].
      intros node0 _ Hreplaced.
      assert (Hthrows : exists e, Nodes.metric_row now nodeId metrics = Throw e).
      { unfold Nodes.metric_row.
        destruct (BigInt (Nodes.m_networkRx metrics)) as [rx | e] eqn:Hrx; cbn;
          [| eauto].
        destruct Hreplaced as [Hone | Hone];
          [destruct Hone as [Hx | [Hx | Hx]]; rewrite Hx in Hrx; discriminate |].
        destruct Hone as [-> | [-> | ->]]; cbn; eauto. }
      destruct Hthrows as [e Hthrows]. rewrite Hthrows. cbn.
      rewrite app_nil_r, lookup_insert_eq. auto.
  - assert (Hupdate : Nodes.updateHeartbeat now nodeId metrics db =
                      (db, Throw PrismaRecordNotFound)).
    { unfold Nodes.updateHeartbeat, bind, node_update. rewrite Hrow. reflexivity. }
    match goal with |- context [Agent.handleHeartbeat now nodeId ?body db] =>
      assert (Hhandle : Agent.handleHeartbeat now nodeId body db =
                        (db, Throw PrismaRecordNotFound))
        by (unfold Agent.handleHeartbeat, bind, node_update; rewrite Hrow; reflexivity);
      rewrite Hhandle end.
    rewrite Hupdate. cbn [fst snd].
    split; [reflexivity |]. split; [reflexivity |]. split; [auto |].
    split; [auto |]. split; [discriminate |].
    intros x [-> | [-> | ->]]; split; reflexivity.
Qed.

(** A heartbeat does not use up the enrollment token.  A node that holds an
    unexpired token and is set [online] by a heartbeat still holds it,
    whatever the body and however the heartbeat ends after the update:
    [enrollNode] with that token, with a panel that accepts its requests,
    then returns for this node and takes it from [online] to
    [installing]. *)
Theorem heartbeat_keeps_enrollment_token (pterodactylService : Nodes.PterodactylApi)
    (now now' : Z) (token nodeId : string) (node : Node) (tenant : Tenant)
    (metrics : Agent.HeartbeatBody) (nodeData : NodeData.t) (db : Db) :
  unique_tokens db ->
  nodes db !! nodeId = Some node ->
  enrollmentToken node = Some token ->
  Nodes.expired node now' = false ->
  tenants db !! tenantId node = Some tenant ->
  Nodes.accepts pterodactylService ->
  exists db1 db2 daemonConfig,
    fst (Agent.handleHeartbeat now nodeId metrics db) = db1 /\
    (forall rows, Agent.metric_rows now nodeId metrics = Ok rows ->
       snd (Agent.handleHeartbeat now nodeId metrics db) = Ok (Agent.mkReply "ok")) /\
    status <$> nodes db1 !! nodeId = Some NodeStatus.online /\
    Nodes.enrollNode pterodactylService now' token nodeData db1 =
      (db2, Ok (Nodes.mkEnrollResult nodeId daemonConfig)) /\
    status <$> nodes db2 !! nodeId = Some NodeStatus.installing.
Proof.
  intros Hunique Hrow Htoken Hfresh Htenant Haccepts.
  set (node1 := Agent.heartbeat_data now metrics node).
  set (db1 := mkDb (<[nodeId := node1]> (nodes db)) (tenants db)
                (nodeMetrics db ++ Agent.rows_added now nodeId metrics)%list).
  assert (Hunique1 : unique_tokens db1)
    by (apply (unique_tokens_update db nodeId node); auto).
  assert (Hrow1 : nodes db1 !! nodeId = Some node1) by apply lookup_insert_eq.
  destruct (enroll_after_lookup_returns pterodactylService nodeData
              (Nodes.mkFound nodeId node1 (tenants db1 !! tenantId node1)) tenant
              node1 db1 Haccepts Htenant Hrow1)
    as (pid & lid & sealed & daemonConfig & Hrun).
  exists db1. eexists. exists daemonConfig.
  rewrite (handleHeartbeat_runs now nodeId metrics db node Hrow). cbn [fst snd].
  split; [reflexivity |].
  split; [intros rows ->; reflexivity |].
  split; [rewrite Hrow1; reflexivity |].
  unfold Nodes.enrollNode, bind.
  rewrite (enroll_lookup_finds now' token nodeId node1 db1 Hunique1 Hrow1 Htoken Hfresh).
  rewrite Hrun. split; [reflexivity |].
  cbn. rewrite lookup_insert_eq. reflexivity.
Qed.

(** While the panel turns down [createLocation], [createNode] or the sealing
    of the daemon token, nothing is written and the token stays good: the
    call throws what the panel threw, and a later call with the same token,
    unexpired by then and with a panel that accepts, enrolls the node. *)
Theorem enrollNode_early_failure_is_retryable
    (failing later : Nodes.PterodactylApi) (now now' : Z) (token id : string)
    (node : Node) (tenant : Tenant) (nodeData nodeData' : NodeData.t) (db : Db)
    (e : exn) :
  unique_tokens db ->
  nodes db !! id = Some node ->
  enrollmentToken node = Some token ->
  Nodes.expired node now = false ->
  Nodes.expired node now' = false ->
  tenants db !! tenantId node = Some tenant ->
  ((forall dto, Nodes.createLocation failing dto = Throw e) \/
   ((forall dto, is_ok (Nodes.createLocation failing dto) = true) /\
    (forall dto, Nodes.createNode failing dto = Throw e)) \/
   ((forall dto, is_ok (Nodes.createLocation failing dto) = true) /\
    (forall dto, is_ok (Nodes.createNode failing dto) = true) /\
    (forall apiKey, Nodes.encryptApiKey failing apiKey = Throw e))) ->
  Nodes.accepts later ->
  Nodes.enrollNode failing now token nodeData db = (db, Throw e) /\
  exists db' daemonConfig,
    Nodes.enrollNode later now' token nodeData' db =
      (db', Ok (Nodes.mkEnrollResult id daemonConfig)) /\
    status <$> nodes db' !! id = Some NodeStatus.installing.
Proof.
  intros Hunique Hrow Htoken Hfresh Hfresh' Htenant Hfails Haccepts.
  split.
  - unfold Nodes.enrollNode, bind.
    rewrite (enroll_lookup_finds now token id node db Hunique Hrow Htoken Hfresh).
    unfold Nodes.enroll_after_lookup, bind, lift, throw.
    cbn [Nodes.found_tenant Nodes.found_node Nodes.found_id].
    rewrite Htenant.
    destruct Hfails as [Hlocation | [[Hlocation Hnode] | (Hlocation & Hnode & Hseal)]].
    + rewrite Hlocation. reflexivity.
    + match goal with |- context [Nodes.createLocation ?s ?dto] =>
        specialize (Hlocation dto);
        destruct (Nodes.createLocation s dto) as [location |]; [| discriminate] end.
      rewrite Hnode. reflexivity.
    + match goal with |- context [Nodes.createLocation ?s ?dto] =>
        specialize (Hlocation dto);
        destruct (Nodes.createLocation s dto) as [location |]; [| discriminate] end.
      match goal with |- context [Nodes.createNode ?s ?dto] =>
        specialize (Hnode dto);
        destruct (Nodes.createNode s dto) as [pterodactylNode |]; [| discriminate] end.
      rewrite Hseal. reflexivity.
  - destruct (enroll_after_lookup_returns later nodeData'
                (Nodes.mkFound id node (tenants db !! tenantId node)) tenant node db
                Haccepts Htenant Hrow)
      as (pid & lid & sealed & daemonConfig & Hrun).
    eexists. exists daemonConfig.
    unfold Nodes.enrollNode, bind.
    rewrite (enroll_lookup_finds now' token id node db Hunique Hrow Htoken Hfresh').
    rewrite Hrun. split; [reflexivity |].
    cbn. rewrite lookup_insert_eq. reflexivity.
Qed.

End HeartbeatEffects.

Lemma heartbeat_keeps_enrollment_token_witness :
  exists db1 db2 daemonConfig,
    fst (Agent.handleHeartbeat 1000 "n1" Examples.heartbeat_body Examples.db_pending) = db1 /\
    (forall rows, Agent.metric_rows 1000 "n1" Examples.heartbeat_body = Ok rows ->
       snd (Agent.handleHeartbeat 1000 "n1" Examples.heartbeat_body Examples.db_pending)
         = Ok (Agent.mkReply "ok")) /\
    status <$> nodes db1 !! "n1" = Some NodeStatus.online /\
    Nodes.enrollNode Examples.panel 2000 "tok-abc123" Examples.nodeData db1 =
      (db2, Ok (Nodes.mkEnrollResult "n1" daemonConfig)) /\
    status <$> nodes db2 !! "n1" = Some NodeStatus.installing.
Proof.
  apply (heartbeat_keeps_enrollment_token Examples.panel 1000 2000 "tok-abc123" "n1"
           (Examples.created "tok-abc123" Examples.day) (mkTenant "Acme")
           Examples.heartbeat_body Examples.nodeData Examples.db_pending);
    try compute_done.
  repeat split; intros; vm_compute; reflexivity.
Defined.

Lemma enrollNode_early_failure_witness :
  let down :=
    Nodes.mkApi
      (fun _ => Ok (PterodactylLocation.mk 7))
      (fun _ => Throw (HttpException "Pterodactyl API request failed: timeout" 500))
      (fun _ _ => Ok tt)
      (fun _ => Ok "wings configuration")
      (fun apiKey => Ok apiKey) in
  Nodes.enrollNode down 1000 "tok-abc123" Examples.nodeData Examples.db_pending =
    (Examples.db_pending,
     Throw (HttpException "Pterodactyl API request failed: timeout" 500)) /\
  exists db' daemonConfig,
    Nodes.enrollNode Examples.panel 2000 "tok-abc123" Examples.nodeData
      Examples.db_pending =
      (db', Ok (Nodes.mkEnrollResult "n1" daemonConfig)) /\
    status <$> nodes db' !! "n1" = Some NodeStatus.installing.
Proof.
  intros down.
  apply (enrollNode_early_failure_is_retryable down Examples.panel 1000 2000
           "tok-abc123" "n1" (Examples.created "tok-abc123" Examples.day)
           (mkTenant "Acme") Examples.nodeData Examples.nodeData Examples.db_pending
           (HttpException "Pterodactyl API request failed: timeout" 500));
    try compute_done.
  - right. left. split; intros; reflexivity.
  - repeat split; intros; reflexivity.
Defined.

(** ** Heartbeat processor: what the bearer token decides *)

Section RouteProperties.
Context {J : Jwt.JwtService}.
Variable configService_get : string -> option string.

(** What [authenticateAgent] has checked when it returns. *)
Lemma authenticateAgent_success (now : Z) (token : string) (db db' : Db)
    (found : Agent.AuthenticatedNode) :
  Agent.authenticateAgent configService_get now token db = (db', Ok found) ->
  db' = db /\
  exists payload,
    Jwt.verify token (configService_get "AGENT_TOKEN_SECRET") now = Ok payload /\
    Jwt.claim "nodeId" (Jwt.claims payload) = Some (Agent.id found) /\
    nodes db !! Agent.id found = Some (Agent.node found) /\
    Agent.tenant found = tenants db !! tenantId (Agent.node found).
Proof.
  unfold Agent.authenticateAgent, Agent.authenticateAgent_body, bind, lift, throw,
    node_findUnique_id.
  destruct (Jwt.verify _ _ _) as [payload |]; cbn; [| discriminate].
  destruct (Jwt.claim "nodeId" (Jwt.claims payload)) as [nodeId |] eqn:Hclaim; cbn;
    [| discriminate].
  destruct (nodes db !! nodeId) as [node |] eqn:Hrow; cbn; [| discriminate].
  intros [= <- <-]. split; [reflexivity |]. exists payload. cbn. auto.
Qed.

(** [authenticateAgent] only reads.  It returns a node only for a token that
    [verify] accepts under [AGENT_TOKEN_SECRET] at that time, and then the
    row of the table whose id is the token's [nodeId] claim, with its
    tenant; every failure, the [UnauthorizedException('Node not found')] of
    its own body included, reaches the caller as
    [UnauthorizedException('Invalid agent token')]. *)
Theorem authenticateAgent_accepts_only_verified_tokens (now : Z) (token : string)
    (db db' : Db) (outcome : result Agent.AuthenticatedNode) :
  Agent.authenticateAgent configService_get now token db = (db', outcome) ->
  db' = db /\
  match outcome with
  | Ok found =>
      exists payload,
        Jwt.verify token (configService_get "AGENT_TOKEN_SECRET") now = Ok payload /\
        Jwt.claim "nodeId" (Jwt.claims payload) = Some (Agent.id found) /\
        nodes db !! Agent.id found = Some (Agent.node found) /\
        Agent.tenant found = tenants db !! tenantId (Agent.node found)
  | Throw e => e = UnauthorizedException "Invalid agent token"
  end.
Proof.
  destruct outcome as [found | e]; intros Hrun.
  - exact (authenticateAgent_success now token db db' found Hrun).
  - unfold Agent.authenticateAgent in Hrun.
    destruct (Agent.authenticateAgent_body configService_get now token db)
      as [db0 [found | e0]] eqn:Hbody; [discriminate |].
    injection Hrun as <- <-. split; [| reflexivity].
    unfold Agent.authenticateAgent_body, bind, lift, throw, node_findUnique_id in Hbody.
    destruct (Jwt.verify _ _ _) as [payload |]; cbn in Hbody; [| congruence].
    destruct (Jwt.claim "nodeId" (Jwt.claims payload)) as [nodeId |]; cbn in Hbody;
      [| congruence].
    destruct (nodes db !! nodeId); cbn in Hbody; congruence.
Qed.

(** The [type] claim is never read.  Whatever claims a token carries and
    whatever its lifetime, if it is signed under [AGENT_TOKEN_SECRET] and has
    a [nodeId] claim that is the id of a node, [authenticateAgent] returns
    that node until the token expires. *)
Theorem authenticateAgent_reads_nodeId_only {L : Jwt.JwtLaws J}
    (secret : string) (payload : list (string * string)) (span : Jwt.Span)
    (now now' : Z) (nodeId : string) (node : Node) (db : Db) :
  configService_get "AGENT_TOKEN_SECRET" = Some secret ->
  secret <> "" ->
  Jwt.claim "nodeId" payload = Some nodeId ->
  nodes db !! nodeId = Some node ->
  now <= now' ->
  now' / 1000 < now / 1000 + Jwt.span_seconds span ->
  exists token,
    Jwt.sign payload (Some secret) span now = Ok token /\
    Agent.authenticateAgent configService_get now' token db =
      (db, Ok (Agent.mkAuthenticated nodeId node (tenants db !! tenantId node))).
Proof.
  intros Hsecret Hset Hclaim Hrow Hlater Hfresh.
  destruct (Jwt.sign_verify payload secret span now Hset) as (token & Hsign & Hverify).
  specialize (Hverify now' Hlater Hfresh).
  exists token. split; [exact Hsign |].
  unfold Agent.authenticateAgent, Agent.authenticateAgent_body, bind, lift,
    node_findUnique_id.
  rewrite Hsecret, Hverify. cbn [Jwt.claims]. rewrite Hclaim. cbn. rewrite Hrow.
  reflexivity.
Qed.


End RouteProperties.

Lemma authenticateAgent_accepts_only_witness :
  let db := Examples.fleet (Examples.in_status NodeStatus.online) in
  let run := Agent.authenticateAgent (J := Model.jwt) Examples.configService_get 6000
               "not-a-token" db in
  fst run = db /\
  match snd run with
  | Ok found =>
      exists payload,
        Model.jwt_verify "not-a-token" (Some "agent-secret") 6000 = Ok payload /\
        Jwt.claim "nodeId" (Jwt.claims payload) = Some (Agent.id found) /\
        nodes db !! Agent.id found = Some (Agent.node found) /\
        Agent.tenant found = tenants db !! tenantId (Agent.node found)
  | Throw e => e = UnauthorizedException "Invalid agent token"
  end.
Proof.
  intros db run.
  apply (@authenticateAgent_accepts_only_verified_tokens Model.jwt
           Examples.configService_get 6000 "not-a-token" db (fst run) (snd run)).
  subst run. destruct (Agent.authenticateAgent _ _ _ _). reflexivity.
Defined.

Lemma authenticateAgent_reads_nodeId_only_witness :
  let db := Examples.fleet (Examples.in_status NodeStatus.online) in
  exists token,
    Model.jwt_sign [("nodeId", "n1"); ("type", "password-reset")]
      (Some "agent-secret") (Jwt.Days 1) 5000 = Ok token /\
    Agent.authenticateAgent (J := Model.jwt) Examples.configService_get 6000 token db =
      (db, Ok (Agent.mkAuthenticated "n1" (Examples.in_status NodeStatus.online)
                 (Some (mkTenant "Acme")))).
Proof.
  intros db.
  apply (@authenticateAgent_reads_nodeId_only Model.jwt Examples.configService_get
           model_jwt_laws "agent-secret"
           [("nodeId", "n1"); ("type", "password-reset")] (Jwt.Days 1) 5000 6000
           "n1" (Examples.in_status NodeStatus.online) db);
    first [compute_done | discriminate].
Defined.

